(** * Go game sessions: a shallow embedding of [src/models/Game.ts] and of the
    game routes, with the properties of the rules engine and of the session
    state machine that the specification states about them.

    Conventions of the embedding.
    - A JavaScript [number] is a [Z]; the code only compares, increments and
      stores the numbers it is given. The embedding is of the integers whose
      arithmetic is exact (below 2^53): a coordinate that is not an integer,
      or no number at all, is outside of it.
    - A Mongoose [ObjectId] is the string its [toString()] yields; the routes
      compare identifiers through [toString()] only.
    - [new Date()] and [Date.now()] are read from the environment: a method
      takes the instants it reads as arguments, one for each read. A route
      handler and the save hook take the instant of the request, which stands
      for each of their reads: the stamps of a saved document are given up
      to the time that passes within one request.
    - A method of the document is a computation over the document, in a small
      state-and-exception monad: a [throw] keeps the document as it is at
      that point, so "nothing was changed before the throw" is a theorem and
      not a convention.
    - [board[y][x]] is a lookup in a list of rows; reading a property of
      [undefined] raises [TypeError], as in JavaScript. *)

From Stdlib Require Import ZArith String List Lia Bool.
From stdpp Require Import base tactics option numbers list.

Local Open Scope Z_scope.

(** ** Data model ([src/types/index.ts], [gameSchema]) *)

Inductive StoneColor := black | white.
Inductive GameSessionStatus := waiting | active | paused | completed | abandoned.
Inductive KoRule := standard | superko.
Inductive ScoringMethod := area | territory.
Inductive TimeControl := TcNone | Blitz | Rapid | Classical.
Inductive ChatType := chat_msg | system_msg.

#[global] Instance StoneColor_eq_dec : EqDecision StoneColor.
Proof. solve_decision. Defined.
#[global] Instance GameSessionStatus_eq_dec : EqDecision GameSessionStatus.
Proof. solve_decision. Defined.

Abbreviation ObjectId := string.
Definition Date := Z.

Record GameBoardCell := mkCell {
  stone : option StoneColor;      (* null when the intersection is empty *)
  liberties : Z;
  groupId : option string
}.

Record CapturedPosition := mkCaptured { cap_x : Z; cap_y : Z }.

Record CapturedStones := mkCapturedStones { cs_black : Z; cs_white : Z }.

Record LastMove := mkLastMove {
  lm_x : Z; lm_y : Z; lm_color : StoneColor; lm_timestamp : Date
}.

Record GameMoveHistory := mkMove {
  mv_playerId : ObjectId;
  mv_color : StoneColor;
  mv_x : Z;
  mv_y : Z;
  mv_timestamp : Date;
  mv_capturedStones : list CapturedPosition;
  mv_pass : bool
}.

Abbreviation Board := (list (list GameBoardCell)).

Record GameBoardState := mkBoardState {
  currentTurn : StoneColor;
  moveCount : Z;
  lastMove : option LastMove;
  board : Board;
  capturedStones : CapturedStones;
  moveHistory : list GameMoveHistory;
  consecutivePasses : Z
}.

Record GamePlayer := mkPlayer {
  playerId : ObjectId;
  username : string;
  displayName : string;
  color : StoneColor;
  isReady : bool;
  isConnected : bool;
  lastSeen : Date;
  timeRemaining : option Z;
  score : Z;
  pl_capturedStones : Z
}.

Record GameSessionSettings := mkSettings {
  boardSize : Z;
  timeControl : TimeControl;
  timeLimit : option Z;
  handicap : Z;
  komi2 : Z;                      (* komi in half points: 6.5 is 13 *)
  allowUndo : bool;
  allowResign : bool
}.

Record GameRules := mkRules {
  suicideAllowed : bool;
  koRule : KoRule;
  scoringMethod : ScoringMethod
}.

Record GameMetadata := mkMetadata {
  createdBy : ObjectId;
  createdAt : Date;
  startedAt : option Date;
  lastActivity : Date;
  spectators : list ObjectId;
  maxSpectators : Z
}.

Record ChatMessage := mkChat {
  ch_playerId : ObjectId;
  ch_username : string;
  ch_message : string;
  ch_timestamp : Date;
  ch_type : ChatType
}.

Record Game := mkGame {
  gameId : string;
  status : GameSessionStatus;
  players : list GamePlayer;
  gameSettings : GameSessionSettings;
  boardState : GameBoardState;
  gameRules : GameRules;
  metadata : GameMetadata;
  chat : list ChatMessage;
  updatedAt : Date
}.

Record GamePlayerData := mkPlayerData {
  pd_playerId : ObjectId;
  pd_username : string;
  pd_displayName : string
}.

(** Assignments to one property of the document. *)

Definition set_status (v : GameSessionStatus) (g : Game) : Game :=
  mkGame (gameId g) v (players g) (gameSettings g) (boardState g)
         (gameRules g) (metadata g) (chat g) (updatedAt g).

Definition set_players (v : list GamePlayer) (g : Game) : Game :=
  mkGame (gameId g) (status g) v (gameSettings g) (boardState g)
         (gameRules g) (metadata g) (chat g) (updatedAt g).

Definition set_boardState (v : GameBoardState) (g : Game) : Game :=
  mkGame (gameId g) (status g) (players g) (gameSettings g) v
         (gameRules g) (metadata g) (chat g) (updatedAt g).

Definition set_gameRules (v : GameRules) (g : Game) : Game :=
  mkGame (gameId g) (status g) (players g) (gameSettings g) (boardState g)
         v (metadata g) (chat g) (updatedAt g).

Definition set_metadata (v : GameMetadata) (g : Game) : Game :=
  mkGame (gameId g) (status g) (players g) (gameSettings g) (boardState g)
         (gameRules g) v (chat g) (updatedAt g).

Definition set_updatedAt (v : Date) (g : Game) : Game :=
  mkGame (gameId g) (status g) (players g) (gameSettings g) (boardState g)
         (gameRules g) (metadata g) (chat g) v.

Definition set_currentTurn (v : StoneColor) (s : GameBoardState) : GameBoardState :=
  mkBoardState v (moveCount s) (lastMove s) (board s) (capturedStones s)
               (moveHistory s) (consecutivePasses s).

Definition set_moveCount (v : Z) (s : GameBoardState) : GameBoardState :=
  mkBoardState (currentTurn s) v (lastMove s) (board s) (capturedStones s)
               (moveHistory s) (consecutivePasses s).

Definition set_lastMove (v : option LastMove) (s : GameBoardState) : GameBoardState :=
  mkBoardState (currentTurn s) (moveCount s) v (board s) (capturedStones s)
               (moveHistory s) (consecutivePasses s).

Definition set_board (v : Board) (s : GameBoardState) : GameBoardState :=
  mkBoardState (currentTurn s) (moveCount s) (lastMove s) v (capturedStones s)
               (moveHistory s) (consecutivePasses s).

Definition set_moveHistory (v : list GameMoveHistory) (s : GameBoardState) : GameBoardState :=
  mkBoardState (currentTurn s) (moveCount s) (lastMove s) (board s) (capturedStones s)
               v (consecutivePasses s).

Definition set_consecutivePasses (v : Z) (s : GameBoardState) : GameBoardState :=
  mkBoardState (currentTurn s) (moveCount s) (lastMove s) (board s) (capturedStones s)
               (moveHistory s) v.

Definition set_startedAt (v : option Date) (m : GameMetadata) : GameMetadata :=
  mkMetadata (createdBy m) (createdAt m) v (lastActivity m) (spectators m) (maxSpectators m).

Definition set_lastActivity (v : Date) (m : GameMetadata) : GameMetadata :=
  mkMetadata (createdBy m) (createdAt m) (startedAt m) v (spectators m) (maxSpectators m).

Definition set_isReady (v : bool) (p : GamePlayer) : GamePlayer :=
  mkPlayer (playerId p) (username p) (displayName p) (color p) v (isConnected p)
           (lastSeen p) (timeRemaining p) (score p) (pl_capturedStones p).

Definition set_stone (v : option StoneColor) (c : GameBoardCell) : GameBoardCell :=
  mkCell v (liberties c) (groupId c).

Definition set_liberties (v : Z) (c : GameBoardCell) : GameBoardCell :=
  mkCell (stone c) v (groupId c).

(** ** Documents as state: a state-and-exception monad *)

Inductive Exn :=
| Error (message : string)   (* throw new Error(message) *)
| TypeError                  (* a property of undefined was read or written *)
| RangeError.                (* Array(n) where n is no array length *)

Inductive Outcome (A : Type) :=
| Returned (a : A) (g : Game)
| Thrown (e : Exn) (g : Game).
Arguments Returned {A} a g.
Arguments Thrown {A} e g.

Definition M (A : Type) : Type := Game -> Outcome A.

Definition ret {A} (a : A) : M A := fun g => Returned a g.

Definition bind {A B} (m : M A) (k : A -> M B) : M B :=
  fun g => match m g with
           | Returned a g' => k a g'
           | Thrown e g' => Thrown e g'
           end.

Definition throw {A} (e : Exn) : M A := fun g => Thrown e g.
Definition this : M Game := fun g => Returned g g.
Definition assign (f : Game -> Game) : M unit := fun g => Returned tt (f g).
Definition assignBoardState (f : GameBoardState -> GameBoardState) : M unit :=
  assign (fun g => set_boardState (f (boardState g)) g).

(** [if (cond) { throw e; }] *)
Definition throwIf (cond : bool) (e : Exn) : M unit :=
  if cond then throw e else ret tt.

#[global] Instance M_ret : MRet M := @ret.
#[global] Instance M_bind : MBind M := fun A B k m => bind m k.

(** The final document of a computation, whether it returned or threw. *)
Definition final {A} (o : Outcome A) : Game :=
  match o with Returned _ g => g | Thrown _ g => g end.

(** ** The board as an array of arrays *)

(** [l[i]]: [undefined] ([None]) outside of the array. *)
Definition index {A} (l : list A) (i : Z) : option A :=
  if Z.ltb i 0 then None else l !! Z.to_nat i.

(** [board[y][x]]; [None] stands for the [TypeError] or the [undefined] that
    reading it yields. *)
Definition cellAt (b : Board) (x y : Z) : option GameBoardCell :=
  match index b y with
  | Some row => index row x
  | None => None
  end.

(** [board[y][x].field = v] on an existing cell. *)
Definition updateCell (f : GameBoardCell -> GameBoardCell) (x y : Z) (b : Board) : Board :=
  alter (alter f (Z.to_nat x)) (Z.to_nat y) b.

Definition opposite (c : StoneColor) : StoneColor :=
  match c with black => white | white => black end.

(** ** Methods of the document ([src/models/Game.ts]) *)

Definition emptyCell : GameBoardCell := mkCell None 4 None.

(** [this.boardState.board[y][x].liberties = v] *)
Definition assignLiberties (x y v : Z) : M unit :=
  g ← this;
  match cellAt (board (boardState g)) x y with
  | None => throw TypeError
  | Some _ => assignBoardState (fun s => set_board (updateCell (set_liberties v) x y (board s)) s)
  end.

(** [for (let i = 0; i < size; i++) body(i)], the loop variable going through
    [from], [from + 1], ... for [n] rounds. *)
Fixpoint forLoop (n : nat) (from : Z) (body : Z -> M unit) : M unit :=
  match n with
  | O => ret tt
  | S n' => body from;; forLoop n' (from + 1) body
  end.

(** [Array(size)] throws a [RangeError] unless [size] is an array length,
    from 0 to 2^32 - 1; the board is assigned once both levels of arrays
    are built. *)
Definition initializeBoard : M unit :=
  g ← this;
  let size := boardSize (gameSettings g) in
  throwIf ((size <? 0) || (4294967296 <=? size)) RangeError;;
  assignBoardState (set_board (replicate (Z.to_nat size) (replicate (Z.to_nat size) emptyCell)));;
  (* Set edge liberties *)
  forLoop (Z.to_nat size) 0 (fun i =>
    assignLiberties i 0 3;;
    assignLiberties i (size - 1) 3;;
    assignLiberties 0 i 3;;
    assignLiberties (size - 1) i 3);;
  (* Corner liberties *)
  assignLiberties 0 0 2;;
  assignLiberties (size - 1) 0 2;;
  assignLiberties 0 (size - 1) 2;;
  assignLiberties (size - 1) (size - 1) 2.

Definition addPlayer (playerData : GamePlayerData) (now : Date) : M unit :=
  g ← this;
  throwIf (2 <=? Z.of_nat (length (players g))) (Error "Game is full");;
  g ← this;
  let color := if Z.of_nat (length (players g)) =? 0 then black else white in
  assign (fun g => set_players
    (players g ++ [mkPlayer (pd_playerId playerData) (pd_username playerData)
                            (pd_displayName playerData) color false true now None 0 0]) g).

Definition makeMove (playerId : ObjectId) (x y : Z) (color : StoneColor)
    (tMove tLast : Date) : M bool :=
  g ← this;
  throwIf (negb (bool_decide (status g = active))) (Error "Game is not active");;
  throwIf (negb (bool_decide (currentTurn (boardState g) = color))) (Error "Not your turn");;
  throwIf ((x <? 0) || (boardSize (gameSettings g) <=? x) ||
           (y <? 0) || (boardSize (gameSettings g) <=? y)) (Error "Invalid coordinates");;
  match cellAt (board (boardState g)) x y with
  | None => throw TypeError
  | Some cell =>
    throwIf (negb (bool_decide (stone cell = None))) (Error "Position already occupied");;
    (* Add move to history *)
    assignBoardState (fun s => set_moveHistory
      (moveHistory s ++ [mkMove playerId color x y tMove [] false]) s);;
    (* Place stone *)
    assignBoardState (fun s => set_board (updateCell (set_stone (Some color)) x y (board s)) s);;
    assignBoardState (fun s => set_moveCount (moveCount s + 1) s);;
    assignBoardState (set_currentTurn (if bool_decide (color = black) then white else black));;
    assignBoardState (set_lastMove (Some (mkLastMove x y color tLast)));;
    (* Reset consecutive passes *)
    assignBoardState (set_consecutivePasses 0);;
    ret true
  end.

(** The pass move is pushed without a [capturedStones] property; the schema
    declares it as an array, which Mongoose defaults to the empty array. *)
Definition passTurn (playerId : ObjectId) (color : StoneColor) (tMove : Date) : M bool :=
  g ← this;
  throwIf (negb (bool_decide (status g = active))) (Error "Game is not active");;
  throwIf (negb (bool_decide (currentTurn (boardState g) = color))) (Error "Not your turn");;
  assignBoardState (fun s => set_moveHistory
    (moveHistory s ++ [mkMove playerId color (-1) (-1) tMove [] true]) s);;
  assignBoardState (set_currentTurn (if bool_decide (color = black) then white else black));;
  assignBoardState (fun s => set_consecutivePasses (consecutivePasses s + 1) s);;
  (* Check for game end (two consecutive passes) *)
  g ← this;
  (if 2 <=? consecutivePasses (boardState g) then assign (set_status completed) else ret tt);;
  ret true.

Definition startGame (now : Date) : M unit :=
  g ← this;
  throwIf (negb (Z.of_nat (length (players g)) =? 2)) (Error "Need exactly 2 players to start");;
  throwIf (negb (forallb isReady (players g))) (Error "All players must be ready");;
  assign (set_status active);;
  assign (fun g => set_metadata (set_startedAt (Some now) (metadata g)) g);;
  initializeBoard.

(** [gameSchema.pre('save')]: the two stamps written before a document is
    persisted, both at the instant of the request. *)
Definition save (now : Date) (g : Game) : Game :=
  set_metadata (set_lastActivity now (metadata g)) (set_updatedAt now g).

(** ** Route handlers ([routes/games.ts])

    A handler receives the document that [Game.findOne] found ([None] when
    there is none) and the authenticated player, and yields the response
    together with the document as last persisted by [game.save()] ([None]
    when the handler never saved). The socket events are not part of the
    model. The validation chains of the routes are declared but their result
    is never read by a handler, so they do not constrain the inputs. *)

Record AuthPlayer := mkAuth {
  _id : ObjectId;
  au_username : string;
  au_displayName : string
}.

Inductive Response :=
| JsonError (code : Z) (error : string)
| JsonOk (code : Z) (message : string).

Record Handled := mkHandled {
  response : Response;
  saved : option Game
}.

Definition reject (code : Z) (error : string) : Handled :=
  mkHandled (JsonError code error) None.

Definition playerDataOf (p : AuthPlayer) : GamePlayerData :=
  mkPlayerData (_id p) (au_username p) (au_displayName p).

(** [game.players.find(p => p.playerId.toString() === req.player._id.toString())] *)
Definition findPlayer (p : AuthPlayer) (g : Game) : option GamePlayer :=
  find (fun q => String.eqb (playerId q) (_id p)) (players g).

Record CreateBody := mkCreateBody {
  cb_boardSize : Z;
  cb_timeControl : TimeControl;
  cb_timeLimit : option Z;
  cb_handicap : option Z;
  cb_komi2 : option Z;
  cb_allowUndo : option bool;
  cb_allowResign : option bool
}.

(** [new Game({...})] of the creation route: the fields the route gives, the
    schema defaults for the others. *)
Definition newGame (uuid : string) (body : CreateBody) (creator : AuthPlayer) (now : Date) : Game :=
  mkGame uuid waiting []
    (mkSettings (cb_boardSize body) (cb_timeControl body) (cb_timeLimit body)
                (default 0 (cb_handicap body)) (default 13 (cb_komi2 body))
                (default false (cb_allowUndo body)) (default true (cb_allowResign body)))
    (mkBoardState black 0 None [] (mkCapturedStones 0 0) [] 0)
    (mkRules false standard territory)
    (mkMetadata (_id creator) now None now [] 10)
    [] now.

(** The schema accepts the board sizes 9, 13 and 19 only; a document with
    another size fails validation when it is first saved. *)
Definition validBoardSize (n : Z) : bool := (n =? 9) || (n =? 13) || (n =? 19).

(** [POST /] *)
Definition createRoute (uuid : string) (body : CreateBody) (creator : AuthPlayer) (now : Date) : Handled :=
  match addPlayer (playerDataOf creator) now (newGame uuid body creator now) with
  | Thrown _ _ => reject 500 "Server error creating game"
  | Returned _ game =>
      if validBoardSize (boardSize (gameSettings game))
      then mkHandled (JsonOk 201 "Game created successfully") (Some (save now game))
      else reject 500 "Server error creating game"
  end.

(** [POST /:gameId/join] *)
Definition joinRoute (player : AuthPlayer) (now : Date) (doc : option Game) : Handled :=
  match doc with
  | None => reject 404 "Game not found"
  | Some game =>
    if negb (bool_decide (status game = waiting))
    then reject 400 "Game is not accepting players"
    else if 2 <=? Z.of_nat (length (players game))
    then reject 400 "Game is full"
    else if existsb (fun q => String.eqb (playerId q) (_id player)) (players game)
    then reject 400 "You are already in this game"
    else match addPlayer (playerDataOf player) now game with
         | Thrown _ _ => reject 500 "Server error joining game"
         | Returned _ game' =>
             mkHandled (JsonOk 200 "Joined game successfully") (Some (save now game'))
         end
  end.

(** [player.isReady = true] on the player that [find] returned: the first
    one with this identifier. *)
Fixpoint markReady (id : ObjectId) (ps : list GamePlayer) : list GamePlayer :=
  match ps with
  | [] => []
  | q :: ps' => if String.eqb (playerId q) id then set_isReady true q :: ps'
                else q :: markReady id ps'
  end.

(** [POST /:gameId/ready] *)
Definition readyRoute (player : AuthPlayer) (now : Date) (doc : option Game) : Handled :=
  match doc with
  | None => reject 404 "Game not found"
  | Some game =>
    match findPlayer player game with
    | None => reject 403 "You are not part of this game"
    | Some _ =>
      let game1 := save now (set_players (markReady (_id player) (players game)) game) in
      (* Check if both players are ready *)
      if (Z.of_nat (length (players game1)) =? 2) && forallb isReady (players game1)
      then match startGame now game1 with
           | Thrown _ _ => mkHandled (JsonError 500 "Server error updating player ready status") (Some game1)
           | Returned _ game2 =>
               mkHandled (JsonOk 200 "Player ready status updated") (Some (save now game2))
           end
      else mkHandled (JsonOk 200 "Player ready status updated") (Some game1)
    end
  end.

(** [POST /:gameId/move] *)
Definition moveRoute (player : AuthPlayer) (x y : Z) (now : Date) (doc : option Game) : Handled :=
  match doc with
  | None => reject 404 "Game not found"
  | Some game =>
    if negb (bool_decide (status game = active))
    then reject 400 "Game is not active"
    else match findPlayer player game with
    | None => reject 403 "You are not part of this game"
    | Some p =>
      (* Make the move *)
      match makeMove (_id player) x y (color p) now now game with
      | Thrown _ _ => reject 500 "Server error making move"
      | Returned moveSuccess game' =>
          if negb moveSuccess then reject 400 "Invalid move"
          else mkHandled (JsonOk 200 "Move made successfully") (Some (save now game'))
      end
    end
  end.

(** [POST /:gameId/pass] *)
Definition passRoute (player : AuthPlayer) (now : Date) (doc : option Game) : Handled :=
  match doc with
  | None => reject 404 "Game not found"
  | Some game =>
    if negb (bool_decide (status game = active))
    then reject 400 "Game is not active"
    else match findPlayer player game with
    | None => reject 403 "You are not part of this game"
    | Some p =>
      (* Pass turn *)
      match passTurn (_id player) (color p) now game with
      | Thrown _ _ => reject 500 "Server error passing turn"
      | Returned passSuccess game' =>
          if negb passSuccess then reject 400 "Cannot pass turn"
          else mkHandled (JsonOk 200 "Turn passed successfully") (Some (save now game'))
      end
    end
  end.

(** ** Sessions as sequences of requests *)

Inductive Request :=
| Join (player : AuthPlayer) (now : Date)
| Ready (player : AuthPlayer) (now : Date)
| Move (player : AuthPlayer) (x y : Z) (now : Date)
| Pass (player : AuthPlayer) (now : Date).

Definition handle (r : Request) (doc : option Game) : Handled :=
  match r with
  | Join p now => joinRoute p now doc
  | Ready p now => readyRoute p now doc
  | Move p x y now => moveRoute p x y now doc
  | Pass p now => passRoute p now doc
  end.

(** The stored document after a request: what the handler saved, or the
    document as it was when the handler saved nothing. *)
Definition persist (g : Game) (r : Request) : Game :=
  default g (saved (handle r (Some g))).

Definition run (g : Game) (rs : list Request) : Game := foldl persist g rs.

(** ** Groups and liberties

    The repository stores a [liberties] number in every cell and never
    reads it; it has no function that computes a group or its liberties.
    The properties below need both, so they are defined here as the
    specification defines them. *)

(** An intersection, as the routes name it: column [x], row [y]. *)
Abbreviation Coord := (Z * Z)%type.

Definition coord_eqb (p q : Coord) : bool := (p.1 =? q.1) && (p.2 =? q.2).

Definition mem (p : Coord) (l : list Coord) : bool := existsb (coord_eqb p) l.

Definition stoneAt (b : Board) (p : Coord) : option StoneColor :=
  match cellAt b p.1 p.2 with
  | Some cell => stone cell
  | None => None
  end.

Definition hasStone (b : Board) (c : StoneColor) (p : Coord) : bool :=
  match stoneAt b p with
  | Some c' => bool_decide (c' = c)
  | None => false
  end.

(** An empty intersection of the board (off-board points are not empty). *)
Definition isEmpty (b : Board) (p : Coord) : bool :=
  match cellAt b p.1 p.2 with
  | Some cell => match stone cell with None => true | Some _ => false end
  | None => false
  end.

Definition neighbours (p : Coord) : list Coord :=
  [(p.1, p.2 - 1); (p.1, p.2 + 1); (p.1 - 1, p.2); (p.1 + 1, p.2)].

(** All the intersections of a board, row by row. *)
Definition allCoords (b : Board) : list Coord :=
  concat (imap (fun y row => (fun x => (Z.of_nat x, Z.of_nat y)) <$> seq 0 (length row)) b).

(** Flood fill from a work list: [seen] collects the stones of colour [c]
    reached so far. *)
Fixpoint flood (fuel : nat) (b : Board) (c : StoneColor) (work seen : list Coord) : list Coord :=
  match fuel with
  | O => seen
  | S fuel' =>
    match work with
    | [] => seen
    | p :: work' =>
      if hasStone b c p && negb (mem p seen)
      then flood fuel' b c (neighbours p ++ work') (p :: seen)
      else flood fuel' b c work' seen
    end
  end.

(** Modelled from the spec: [groupAt] of section 4.1, "flood-fill over
    same-color, 4-connected intersections". Every stone enters [seen] once
    and pushes four work items, so [4 * cells + 2] steps suffice. *)
Definition groupAt (b : Board) (p : Coord) : list Coord :=
  match stoneAt b p with
  | Some c => flood (4 * length (allCoords b) + 2) b c [p] []
  | None => []
  end.

Fixpoint dedup (l : list Coord) : list Coord :=
  match l with
  | [] => []
  | p :: l' => if mem p l' then dedup l' else p :: dedup l'
  end.

(** Modelled from the spec: "a liberty is any empty intersection adjacent to
    any stone in the group (duplicates counted once)". *)
Definition libertiesAt (b : Board) (p : Coord) : list Coord :=
  dedup (filter (fun l => isEmpty b l = true) (concat (neighbours <$> groupAt b p))).

Definition libertyCount (b : Board) (p : Coord) : Z :=
  Z.of_nat (length (libertiesAt b p)).

(** The same notions as relations: the stones connected to [p] through
    stones of colour [c], and the liberties of that group. *)
Inductive connected (b : Board) (c : StoneColor) (p : Coord) : Coord -> Prop :=
| connected_refl :
    stoneAt b p = Some c -> connected b c p p
| connected_step q r :
    connected b c p q -> r ∈ neighbours q -> stoneAt b r = Some c ->
    connected b c p r.

Definition isLiberty (b : Board) (p l : Coord) : Prop :=
  exists c q, connected b c p q /\ l ∈ neighbours q /\ isEmpty b l = true.

(** The stone layout of a board: what a position digest is computed from. *)
Definition layout (b : Board) : list (list (option StoneColor)) := map (map stone) b.

(** The board a placement yields: [board[y][x].stone = color]. *)
Definition place (c : StoneColor) (x y : Z) (b : Board) : Board :=
  updateCell (set_stone (Some c)) x y b.

(** ** Notions in which the properties are stated *)

(** [0 <= x < boardSize] and [0 <= y < boardSize]: what the coordinate check
    of [makeMove] lets through. *)
Definition inBounds (g : Game) (x y : Z) : Prop :=
  0 <= x < boardSize (gameSettings g) /\ 0 <= y < boardSize (gameSettings g).

(** The document an accepted placement leaves. *)
Definition committed (playerId : ObjectId) (x y : Z) (c : StoneColor)
    (tMove tLast : Date) (g : Game) : Game :=
  set_boardState
    (mkBoardState (opposite c)
                  (moveCount (boardState g) + 1)
                  (Some (mkLastMove x y c tLast))
                  (place c x y (board (boardState g)))
                  (capturedStones (boardState g))
                  (moveHistory (boardState g) ++ [mkMove playerId c x y tMove [] false])
                  0) g.

(** The reasons for which [makeMove] throws, in the order of its checks. *)
Inductive MoveRejected (g : Game) (x y : Z) (c : StoneColor) : Exn -> Prop :=
| rejected_not_active :
    status g <> active ->
    MoveRejected g x y c (Error "Game is not active")
| rejected_not_your_turn :
    status g = active -> currentTurn (boardState g) <> c ->
    MoveRejected g x y c (Error "Not your turn")
| rejected_coordinates :
    status g = active -> currentTurn (boardState g) = c -> ~ inBounds g x y ->
    MoveRejected g x y c (Error "Invalid coordinates")
| rejected_no_cell :
    status g = active -> currentTurn (boardState g) = c -> inBounds g x y ->
    cellAt (board (boardState g)) x y = None ->
    MoveRejected g x y c TypeError
| rejected_occupied cell :
    status g = active -> currentTurn (boardState g) = c -> inBounds g x y ->
    cellAt (board (boardState g)) x y = Some cell -> stone cell <> None ->
    MoveRejected g x y c (Error "Position already occupied").

(** The conditions under which [makeMove] goes through. *)
Definition MoveAccepted (g : Game) (x y : Z) (c : StoneColor) : Prop :=
  status g = active /\ currentTurn (boardState g) = c /\ inBounds g x y /\
  exists cell, cellAt (board (boardState g)) x y = Some cell /\ stone cell = None.

(** The document an accepted pass leaves. *)
Definition passed (playerId : ObjectId) (c : StoneColor) (tMove : Date) (g : Game) : Game :=
  let g1 := set_boardState
    (mkBoardState (opposite c)
                  (moveCount (boardState g))
                  (lastMove (boardState g))
                  (board (boardState g))
                  (capturedStones (boardState g))
                  (moveHistory (boardState g) ++ [mkMove playerId c (-1) (-1) tMove [] true])
                  (consecutivePasses (boardState g) + 1)) g in
  if 2 <=? consecutivePasses (boardState g) + 1 then set_status completed g1 else g1.

(** The reasons for which [passTurn] throws, in the order of its checks. *)
Inductive PassRejected (g : Game) (c : StoneColor) : Exn -> Prop :=
| pass_not_active :
    status g <> active ->
    PassRejected g c (Error "Game is not active")
| pass_not_your_turn :
    status g = active -> currentTurn (boardState g) <> c ->
    PassRejected g c (Error "Not your turn").

(** The document that would result if the commit changed the move history,
    the board, the pass counter and the turn, and nothing else. *)
Definition fourChanges (playerId : ObjectId) (x y : Z) (c : StoneColor) (tMove : Date)
    (g : Game) : Game :=
  set_boardState
    (set_currentTurn (opposite c)
      (set_consecutivePasses 0
        (set_board (place c x y (board (boardState g)))
          (set_moveHistory
             (moveHistory (boardState g) ++ [mkMove playerId c x y tMove [] false])
             (boardState g))))) g.

(** What a cell holds besides its stone. *)
Definition frame (b : Board) : list (list (Z * option string)) :=
  map (map (fun cell => (liberties cell, groupId cell))) b.

(** The [liberties] that [initializeBoard] leaves in a cell: 2 in the
    corners, 3 on the edges, 4 inside. *)
Definition initialLiberties (n x y : Z) : Z :=
  if ((x =? 0) || (x =? n - 1)) && ((y =? 0) || (y =? n - 1)) then 2
  else if (x =? 0) || (x =? n - 1) || (y =? 0) || (y =? n - 1) then 3
  else 4.

(** The board of side [n] as [initializeBoard] leaves it. *)
Definition initialBoard (n : Z) : Board :=
  (fun y => (fun x => mkCell None (initialLiberties n (Z.of_nat x) (Z.of_nat y)) None)
              <$> seq 0 (Z.to_nat n))
    <$> seq 0 (Z.to_nat n).

(** The part of a document that no request of a game modifies. *)
Record Untouched (g : Game) : Prop := mkUntouched {
  ut_size : validBoardSize (boardSize (gameSettings g)) = true;
  ut_captured : capturedStones (boardState g) = mkCapturedStones 0 0;
  ut_history : Forall (fun m => mv_capturedStones m = []) (moveHistory (boardState g));
  ut_players : Forall (fun p => pl_capturedStones p = 0 /\ score p = 0) (players g);
  ut_passes : 0 <= consecutivePasses (boardState g);
  ut_frame : (status g = waiting /\ board (boardState g) = []) \/
             frame (board (boardState g)) = frame (initialBoard (boardSize (gameSettings g)))
}.

(** Every group of the board has a liberty, as a test. The stones of a board
    are among [allCoords], so the test looks at all of them. *)
Definition allGroupsAlive (b : Board) : bool :=
  forallb (fun p => match stoneAt b p with
                    | Some _ => 1 <=? libertyCount b p
                    | None => true
                    end) (allCoords b).

(** The document with the [suicideAllowed] flag set to [allowed]. *)
Definition withSuicideAllowed (allowed : bool) (g : Game) : Game :=
  set_gameRules (mkRules allowed (koRule (gameRules g)) (scoringMethod (gameRules g))) g.

(** A position: the stone layout and the colour to move. *)
Definition Position : Type := list (list (option StoneColor)) * StoneColor.

(** The position of a session. *)
Definition position (g : Game) : Position :=
  (layout (board (boardState g)), currentTurn (boardState g)).

(** The position that a placement of colour [c] at (x, y) leaves. *)
Definition resulting (g : Game) (c : StoneColor) (x y : Z) : Position :=
  (layout (place c x y (board (boardState g))), opposite c).

(** The requests that are plies: a placement or a pass. *)
Definition isPly (r : Request) : bool :=
  match r with
  | Move _ _ _ _ | Pass _ _ => true
  | Join _ _ | Ready _ _ => false
  end.

(** The route answered the request with a success. *)
Definition accepted (g : Game) (r : Request) : bool :=
  match response (handle r (Some g)) with
  | JsonOk _ _ => true
  | JsonError _ _ => false
  end.

(** Modelled from the spec: the position ledger of section 3, "one digest
    per applied move, append-only". The repository records no position;
    this is the list of the positions that the accepted moves and passes of
    a session have left, oldest first. *)
Fixpoint recorded (g : Game) (rs : list Request) : list Position :=
  match rs with
  | [] => []
  | r :: rs' =>
      (if isPly r && accepted g r then [position (persist g r)] else [])
        ++ recorded (persist g r) rs'
  end.

(** The document under the ko rule [rule] and with the move history [h]. *)
Definition withKo (rule : KoRule) (h : list GameMoveHistory) (g : Game) : Game :=
  set_gameRules (mkRules (suicideAllowed (gameRules g)) rule (scoringMethod (gameRules g)))
    (set_boardState (set_moveHistory h (boardState g)) g).

(** Modelled from the spec: the stones-on-board term of section 4.2. Both
    scoring methods give a colour at least its stones on the board (area:
    stones plus territory; territory: stones plus territory plus captures);
    the komi adjustment concerns white only. *)
Definition stonesOnBoard (c : StoneColor) (b : Board) : Z :=
  Z.of_nat (length (filter (fun p => hasStone b c p = true) (allCoords b))).

(** The identifier already holds a seat. *)
Definition seated (id : ObjectId) (g : Game) : bool :=
  existsb (fun q => String.eqb (playerId q) id) (players g).

(** The player that [addPlayer] seats. *)
Definition seat (pd : GamePlayerData) (now : Date) (g : Game) : GamePlayer :=
  mkPlayer (pd_playerId pd) (pd_username pd) (pd_displayName pd)
           (match players g with [] => black | _ :: _ => white end)
           false true now None 0 0.

(** The seats of a session: black alone, or black then white, each
    identifier once; both seats are taken once the session has left
    ['waiting']. *)
Definition Seats (g : Game) : Prop :=
  (map color (players g) = [black] \/ map color (players g) = [black; white]) /\
  NoDup (map playerId (players g)) /\
  (status g <> waiting -> length (players g) = 2%nat).

(** ** Concrete sessions

    Alice creates a 9x9 game, Bob joins, both declare themselves ready: the
    second [ready] starts the game. The sessions below are obtained by
    running the route handlers; they are the concrete inputs of the
    examples. *)

Definition alice : AuthPlayer := mkAuth "a11ce" "alice" "Alice".
Definition bob : AuthPlayer := mkAuth "b0b" "bob" "Bob".

(** The body of Alice's creation request: a 9x9 board, defaults otherwise. *)
Definition body9 : CreateBody := mkCreateBody 9 TcNone None None None None None.

(** The document that the creation route saved. *)
Definition created : Game :=
  default (newGame "g-1" body9 alice 100) (saved (createRoute "g-1" body9 alice 100)).

(** The session once started: Alice is black and to move. *)
Definition started : Game := run created [Join bob 101; Ready alice 102; Ready bob 103].

(** White answers at (1,1) and elsewhere while Black surrounds (1,1): after
    Black's stones at (1,0), (0,1) and (2,1), the white stone has one
    liberty left, at (1,2). *)
Definition surrounding : Game :=
  run started [Move alice 1 0 104; Move bob 1 1 105; Move alice 0 1 106;
               Move bob 5 5 107; Move alice 2 1 108; Move bob 6 6 109].

(** Black plays the last liberty. *)
Definition surrounded : Game := committed "a11ce" 1 2 black 110 110 surrounding.

(** White's corner stone has one liberty left, at (0,1). *)
Definition cornered : Game := run started [Move alice 1 0 104; Move bob 0 0 105].

(** Black plays it. *)
Definition smothered : Game := committed "a11ce" 0 1 black 106 106 cornered.

(** Black at (4,4), White at (4,5), Black at (4,6). *)
Definition middle : Game := run started [Move alice 4 4 104; Move bob 4 5 105].

(** Black holds (1,0) and (0,1); White, who passed in between, is to move. *)
Definition boxed : Game := run started [Move alice 1 0 104; Pass bob 105; Move alice 0 1 106].

(** White plays into the corner. *)
Definition suicide : Game := committed "b0b" 0 0 white 107 107 boxed.

(** Alice opens at the corner and Bob passes. Alice then declares herself
    ready again: the route does not look at the status, both players are
    ready, so the game is started anew and the board is initialized again,
    the turn and the history staying as they are. *)
Definition koRequests : list Request :=
  [Join bob 101; Ready alice 102; Ready bob 103;
   Move alice 0 0 104; Pass bob 105; Ready alice 106].

(** The session after these requests: active, Black to move, board empty. *)
Definition koSession : Game := run created koRequests.

(** The same session under the other ko rule. The creation route always
    writes ['standard']; the schema admits ['superko'] as well. *)
Definition createdSuperko : Game :=
  set_gameRules (mkRules false superko territory) created.

(** The session that the same requests give under ['superko']. *)
Definition superkoSession : Game := run createdSuperko koRequests.

(** The layout with one black stone in the corner (0,0). *)
Definition cornerStone : list (list (option StoneColor)) :=
  layout (place black 0 0 (board (boardState started))).

(** Alice opens at the corner, then both players pass. *)
Definition passedTwice : Game :=
  run started [Move alice 0 0 104; Pass bob 105; Pass alice 106].

(** ** Further notions: boards by their liberties *)

(** The document with the board [b]. *)
Definition withBoard (b : Board) (g : Game) : Game :=
  set_boardState (set_board b (boardState g)) g.

(** The document with the board size [n]. *)
Definition withBoardSize (n : Z) (g : Game) : Game :=
  mkGame (gameId g) (status g) (players g)
         (mkSettings n (timeControl (gameSettings g)) (timeLimit (gameSettings g))
                     (handicap (gameSettings g)) (komi2 (gameSettings g))
                     (allowUndo (gameSettings g)) (allowResign (gameSettings g)))
         (boardState g) (gameRules g) (metadata g) (chat g) (updatedAt g).

(** The board of side [n] without a stone whose cell (x, y) holds the
    liberties [L x y]. *)
Definition boardOf (n : nat) (L : Z -> Z -> Z) : Board :=
  (fun y => (fun x => mkCell None (L (Z.of_nat x) (Z.of_nat y)) None) <$> seq 0 n)
    <$> seq 0 n.

(** [L] after [board[y][x].liberties = v]. *)
Definition written (L : Z -> Z -> Z) (x y v : Z) : Z -> Z -> Z :=
  fun x' y' => if (x' =? x) && (y' =? y) then v else L x' y'.

(** [L] after the rounds [i], [i + 1], ... of the edge loop of
    [initializeBoard], [k] of them, on a board of side [n]. *)
Fixpoint edged (n : Z) (k : nat) (i : Z) (L : Z -> Z -> Z) : Z -> Z -> Z :=
  match k with
  | O => L
  | S k' =>
      edged n k' (i + 1)
        (written (written (written (written L i 0 3) i (n - 1) 3) 0 i 3) (n - 1) i 3)
  end.

(** ** Further routes ([routes/games.ts]) *)

Definition set_chat (v : list ChatMessage) (g : Game) : Game :=
  mkGame (gameId g) (status g) (players g) (gameSettings g) (boardState g)
         (gameRules g) (metadata g) v (updatedAt g).

(** [POST /:gameId/chat]. [message] is the body field as the handler reads
    it, after the sanitizers of the route ([trim], [escape]) have run. *)
Definition chatRoute (player : AuthPlayer) (message : string) (now : Date)
    (doc : option Game) : Handled :=
  match doc with
  | None => reject 404 "Game not found"
  | Some game =>
    match findPlayer player game with
    | None => reject 403 "You are not part of this game"
    | Some _ =>
      (* Add chat message *)
      mkHandled (JsonOk 200 "Chat message sent successfully")
        (Some (save now (set_chat
           (chat game ++ [mkChat (_id player) (au_username player) message now chat_msg])
           game)))
    end
  end.

(** [POST /:gameId/resign] *)
Definition resignRoute (player : AuthPlayer) (now : Date) (doc : option Game) : Handled :=
  match doc with
  | None => reject 404 "Game not found"
  | Some game =>
    if negb (bool_decide (status game = active))
    then reject 400 "Game is not active"
    else match findPlayer player game with
    | None => reject 403 "You are not part of this game"
    | Some _ =>
      (* End game due to resignation *)
      mkHandled (JsonOk 200 "Game resigned successfully")
        (Some (save now (set_metadata (set_lastActivity now (metadata game))
                           (set_status completed game))))
    end
  end.

(** The winner that the resign route announces:
    [game.players.find(p => p.playerId.toString() !== req.player._id.toString())] *)
Definition resignWinner (player : AuthPlayer) (g : Game) : option GamePlayer :=
  find (fun q => negb (String.eqb (playerId q) (_id player))) (players g).

(** ** Sessions with chat and resignation *)

Inductive Event :=
| Play (r : Request)
| Chat (player : AuthPlayer) (message : string) (now : Date)
| Resign (player : AuthPlayer) (now : Date).

Definition handleEvent (e : Event) (doc : option Game) : Handled :=
  match e with
  | Play r => handle r doc
  | Chat p message now => chatRoute p message now doc
  | Resign p now => resignRoute p now doc
  end.

(** The stored document after an event. *)
Definition persistEvent (g : Game) (e : Event) : Game :=
  default g (saved (handleEvent e (Some g))).

Definition play (g : Game) (es : list Event) : Game := foldl persistEvent g es.

(** What one event does to the stored document: nothing, or one of the
    seven updates that the routes save. *)
Inductive Step (g : Game) : Game -> Prop :=
| step_none :
    Step g g
| step_join p now :
    status g = waiting -> (length (players g) < 2)%nat -> seated (_id p) g = false ->
    Step g (save now (set_players (players g ++ [seat (playerDataOf p) now g]) g))
| step_ready p now q :
    findPlayer p g = Some q ->
    (length (players g) =? 2)%nat && forallb isReady (markReady (_id p) (players g)) = false ->
    Step g (save now (set_players (markReady (_id p) (players g)) g))
| step_start p now q :
    findPlayer p g = Some q ->
    length (players g) = 2%nat ->
    forallb isReady (markReady (_id p) (players g)) = true ->
    Step g (let g1 := save now (set_players (markReady (_id p) (players g)) g) in
            save now
              (withBoard (initialBoard (boardSize (gameSettings g)))
                 (set_metadata (set_startedAt (Some now) (metadata g1))
                    (set_status active g1))))
| step_move p x y tMove tLast now q :
    findPlayer p g = Some q -> MoveAccepted g x y (color q) ->
    Step g (save now (committed (_id p) x y (color q) tMove tLast g))
| step_pass p now q :
    findPlayer p g = Some q -> status g = active -> currentTurn (boardState g) = color q ->
    Step g (save now (passed (_id p) (color q) now g))
| step_chat p message now q :
    findPlayer p g = Some q ->
    Step g (save now (set_chat
              (chat g ++ [mkChat (_id p) (au_username p) message now chat_msg]) g))
| step_resign p now q :
    findPlayer p g = Some q -> status g = active ->
    Step g (save now (set_metadata (set_lastActivity now (metadata g))
                        (set_status completed g))).

(** ** What a session keeps *)

(** The colours black, white, black, ... of [n] plies. *)
Definition alternating (n : nat) : list StoneColor :=
  (fun i => if Nat.even i then black else white) <$> seq 0 n.

(** The number of passes at the head of a list of moves. *)
Fixpoint leadingPasses (l : list GameMoveHistory) : Z :=
  match l with
  | m :: l' => if mv_pass m then 1 + leadingPasses l' else 0
  | [] => 0
  end.

(** The number of passes at the end of a history. *)
Definition trailingPasses (h : list GameMoveHistory) : Z := leadingPasses (rev h).

(** The placements of a history, passes left out. *)
Definition placements (h : list GameMoveHistory) : list GameMoveHistory :=
  filter (fun m => mv_pass m = false) h.

(** The last placement of a history: its coordinates and its colour. *)
Definition lastPlacement (h : list GameMoveHistory) : option (Z * Z * StoneColor) :=
  (fun m => (mv_x m, mv_y m, mv_color m)) <$> find (fun m => negb (mv_pass m)) (rev h).

(** The coordinates and the colour that [lastMove] holds. The instant it
    holds is left out: [makeMove] reads the clock once for the move of the
    history and once more for [lastMove]. *)
Definition lastPlaced (s : GameBoardState) : option (Z * Z * StoneColor) :=
  (fun l => (lm_x l, lm_y l, lm_color l)) <$> lastMove s.

(** The seats as pairs of an identifier and a colour. *)
Definition seatsOf (g : Game) : list (ObjectId * StoneColor) :=
  map (fun q => (playerId q, color q)) (players g).

(** The bookkeeping of a session agrees with its move history. *)
Record Ledger (g : Game) : Prop := mkLedger {
  lg_colours : map mv_color (moveHistory (boardState g)) =
               alternating (length (moveHistory (boardState g)));
  lg_turn : currentTurn (boardState g) =
            if Nat.even (length (moveHistory (boardState g))) then black else white;
  lg_count : moveCount (boardState g) =
             Z.of_nat (length (placements (moveHistory (boardState g))));
  lg_passes : consecutivePasses (boardState g) =
              trailingPasses (moveHistory (boardState g));
  lg_last : lastPlaced (boardState g) = lastPlacement (moveHistory (boardState g));
  lg_stones : forall p c, stoneAt (board (boardState g)) p = Some c ->
              exists m, m ∈ placements (moveHistory (boardState g)) /\
                        (mv_x m, mv_y m) = p /\ mv_color m = c;
  lg_movers : Forall (fun m => (mv_playerId m, mv_color m) ∈ seatsOf g)
                     (moveHistory (boardState g))
}.

(** The status of a session and what it implies. *)
Record Lifecycle (g : Game) : Prop := mkLifecycle {
  lc_status : status g = waiting \/ status g = active \/ status g = completed;
  lc_waiting : status g = waiting ->
               moveHistory (boardState g) = [] /\
               ((length (players g) =? 2)%nat && forallb isReady (players g) = false);
  lc_started : status g <> waiting ->
               length (players g) = 2%nat /\ forallb isReady (players g) = true;
  lc_cells : status g <> waiting ->
             forall x y, inBounds g x y -> is_Some (cellAt (board (boardState g)) x y)
}.

(** Every chat message carries the identifier of a seated player and the
    type ['chat']. *)
Definition fromSeats (g : Game) : Prop :=
  Forall (fun m => seated (ch_playerId m) g = true /\ ch_type m = chat_msg) (chat g).

(** What a session keeps of the creation request [body] of [creator], made
    at [now] under the identifier [uuid]. *)
Record Origin (uuid : string) (body : CreateBody) (creator : AuthPlayer) (now : Date)
    (g : Game) : Prop := mkOrigin {
  og_gameId : gameId g = uuid;
  og_settings : gameSettings g =
                mkSettings (cb_boardSize body) (cb_timeControl body) (cb_timeLimit body)
                  (default 0 (cb_handicap body)) (default 13 (cb_komi2 body))
                  (default false (cb_allowUndo body)) (default true (cb_allowResign body));
  og_size : validBoardSize (cb_boardSize body) = true;
  og_rules : gameRules g = mkRules false standard territory;
  og_createdBy : createdBy (metadata g) = _id creator;
  og_createdAt : createdAt (metadata g) = now;
  og_first : exists q rest, players g = q :: rest /\
             playerId q = _id creator /\ color q = black;
  og_startedAt : status g = waiting <-> startedAt (metadata g) = None
}.

(** Bob joins Alice's game, both are ready, and each places a stone. *)
Definition opening : list Event :=
  [Play (Join bob 101); Play (Ready alice 102); Play (Ready bob 103);
   Play (Move alice 4 4 104); Play (Move bob 4 5 105)].

(** A game that two passes complete. *)
Definition finished : list Event :=
  [Play (Join bob 101); Play (Ready alice 102); Play (Ready bob 103);
   Play (Move alice 0 0 104); Play (Pass bob 105); Play (Pass alice 106)].

(** The player with the identifier [id] is seated and has declared ready. *)
Definition readyIn (id : ObjectId) (g : Game) : bool :=
  existsb (fun q => String.eqb (playerId q) id && isReady q) (players g).

(** * Properties *)

(** ** What the two move methods compute *)

(** [if (game.status !== s) return ...] of a route: the two cases. *)
Ltac case_status g s :=
  let Hs := fresh "Hs" in
  destruct (decide (status g = s)) as [Hs|Hs];
  [rewrite (bool_decide_eq_true_2 _ Hs) | rewrite (bool_decide_eq_false_2 _ Hs)];
  simpl.

(** The turn after a move by [c]: [color === 'black' ? 'white' : 'black']. *)
Lemma flip_opposite (c : StoneColor) :
  (if bool_decide (c = black) then white else black) = opposite c.
Proof. by destruct c. Qed.

Lemma bounds_test (g : Game) (x y : Z) :
  (x <? 0) || (boardSize (gameSettings g) <=? x) ||
  (y <? 0) || (boardSize (gameSettings g) <=? y) = false <-> inBounds g x y.
Proof.
  unfold inBounds. rewrite !orb_false_iff, !Z.ltb_ge, !Z.leb_gt. lia.
Qed.

Lemma makeMove_cases (pid : ObjectId) (x y : Z) (c : StoneColor) (t1 t2 : Date) (g : Game) :
  (exists e, MoveRejected g x y c e /\ makeMove pid x y c t1 t2 g = Thrown e g) \/
  (MoveAccepted g x y c /\
   makeMove pid x y c t1 t2 g = Returned true (committed pid x y c t1 t2 g)).
Proof.
  unfold makeMove, MoveAccepted, mbind, M_bind, bind, this; simpl.
  destruct (decide (status g = active)) as [Hs|Hs].
  2: { left; eexists; split; [by apply rejected_not_active|].
       by rewrite bool_decide_eq_false_2. }
  rewrite (bool_decide_eq_true_2 _ Hs); simpl.
  destruct (decide (currentTurn (boardState g) = c)) as [Ht|Ht].
  2: { left; eexists; split; [by apply rejected_not_your_turn|].
       by rewrite bool_decide_eq_false_2. }
  rewrite (bool_decide_eq_true_2 _ Ht); simpl.
  destruct ((x <? 0) || (boardSize (gameSettings g) <=? x) ||
            (y <? 0) || (boardSize (gameSettings g) <=? y)) eqn:Hb; simpl.
  { left; eexists; split; [|done]. apply rejected_coordinates; auto.
    rewrite <- bounds_test. congruence. }
  apply bounds_test in Hb.
  destruct (cellAt (board (boardState g)) x y) as [cell|] eqn:Hc.
  2: { left; eexists; split; [by apply rejected_no_cell|done]. }
  destruct (decide (stone cell = None)) as [He|He].
  2: { left; eexists; split; [by eapply rejected_occupied|].
       by rewrite bool_decide_eq_false_2. }
  right. rewrite (bool_decide_eq_true_2 _ He); simpl.
  split; [eauto 10|].
  unfold assignBoardState, assign, committed, set_boardState; simpl.
  by rewrite flip_opposite.
Qed.

(** A rejection reason and the acceptance conditions exclude each other. *)
Lemma rejected_not_accepted (g : Game) (x y : Z) (c : StoneColor) (e : Exn) :
  MoveRejected g x y c e -> ~ MoveAccepted g x y c.
Proof.
  intros Hr (Hs & Ht & Hb & cell & Hc & He).
  inversion Hr; subst; first [congruence | tauto].
Qed.

Lemma makeMove_returned (pid : ObjectId) (x y : Z) (c : StoneColor) (t1 t2 : Date)
    (g g' : Game) (r : bool) :
  makeMove pid x y c t1 t2 g = Returned r g' ->
  MoveAccepted g x y c /\ r = true /\ g' = committed pid x y c t1 t2 g.
Proof.
  intros H. destruct (makeMove_cases pid x y c t1 t2 g) as [(e & _ & He)|[Ha He]];
    rewrite He in H; [done|]. by inversion H.
Qed.

Lemma makeMove_thrown (pid : ObjectId) (x y : Z) (c : StoneColor) (t1 t2 : Date)
    (g g' : Game) (e : Exn) :
  makeMove pid x y c t1 t2 g = Thrown e g' -> g' = g /\ MoveRejected g x y c e.
Proof.
  intros H. destruct (makeMove_cases pid x y c t1 t2 g) as [(e' & Hr & He)|[Ha He]];
    rewrite He in H; [|done]. by inversion H; subst.
Qed.

Lemma makeMove_accepts (pid : ObjectId) (x y : Z) (c : StoneColor) (t1 t2 : Date) (g : Game) :
  MoveAccepted g x y c ->
  makeMove pid x y c t1 t2 g = Returned true (committed pid x y c t1 t2 g).
Proof.
  intros Ha. destruct (makeMove_cases pid x y c t1 t2 g) as [(e & Hr & _)|[_ He]]; [|done].
  by destruct (rejected_not_accepted _ _ _ _ _ Hr).
Qed.

Lemma makeMove_rejects (pid : ObjectId) (x y : Z) (c : StoneColor) (t1 t2 : Date)
    (g : Game) (e : Exn) :
  MoveRejected g x y c e -> makeMove pid x y c t1 t2 g = Thrown e g.
Proof.
  intros Hr. destruct (makeMove_cases pid x y c t1 t2 g) as [(e' & Hr' & He)|[Ha _]].
  - rewrite He. f_equal.
    inversion Hr; inversion Hr'; subst; first [done | congruence | tauto].
  - by destruct (rejected_not_accepted _ _ _ _ _ Hr).
Qed.

Lemma passTurn_cases (pid : ObjectId) (c : StoneColor) (t : Date) (g : Game) :
  (exists e, PassRejected g c e /\ passTurn pid c t g = Thrown e g) \/
  (status g = active /\ currentTurn (boardState g) = c /\
   passTurn pid c t g = Returned true (passed pid c t g)).
Proof.
  unfold passTurn, mbind, M_bind, bind, this; simpl.
  destruct (decide (status g = active)) as [Hs|Hs].
  2: { left; eexists; split; [by apply pass_not_active|].
       by rewrite bool_decide_eq_false_2. }
  rewrite (bool_decide_eq_true_2 _ Hs); simpl.
  destruct (decide (currentTurn (boardState g) = c)) as [Ht|Ht].
  2: { left; eexists; split; [by apply pass_not_your_turn|].
       by rewrite bool_decide_eq_false_2. }
  rewrite (bool_decide_eq_true_2 _ Ht); simpl.
  right. split; [done|]. split; [done|].
  unfold passed. rewrite flip_opposite.
  by destruct (2 <=? consecutivePasses (boardState g) + 1).
Qed.

Lemma passTurn_returned (pid : ObjectId) (c : StoneColor) (t : Date) (g g' : Game) (r : bool) :
  passTurn pid c t g = Returned r g' ->
  status g = active /\ currentTurn (boardState g) = c /\ r = true /\ g' = passed pid c t g.
Proof.
  intros H. destruct (passTurn_cases pid c t g) as [(e & _ & He)|(Hs & Ht & He)];
    rewrite He in H; [done|]. by inversion H.
Qed.

Lemma passTurn_thrown (pid : ObjectId) (c : StoneColor) (t : Date) (g g' : Game) (e : Exn) :
  passTurn pid c t g = Thrown e g' -> g' = g /\ PassRejected g c e.
Proof.
  intros H. destruct (passTurn_cases pid c t g) as [(e' & Hr & He)|(Hs & Ht & He)];
    rewrite He in H; [|done]. by inversion H; subst.
Qed.

(** ** Reading the board after a placement *)

Lemma index_Some {A} (l : list A) (i : Z) (a : A) :
  index l i = Some a <-> 0 <= i /\ l !! Z.to_nat i = Some a.
Proof.
  unfold index. destruct (Z.ltb_spec i 0).
  - split; [done | intros [? _]; lia].
  - split; [by intros | by intros [_ ?]].
Qed.

Lemma cellAt_Some (b : Board) (x y : Z) (cell : GameBoardCell) :
  cellAt b x y = Some cell <->
  0 <= x /\ 0 <= y /\ exists row, b !! Z.to_nat y = Some row /\ row !! Z.to_nat x = Some cell.
Proof.
  unfold cellAt. split.
  - destruct (index b y) as [row|] eqn:Hr; [|done].
    intros Hc. apply index_Some in Hr as [? ?]. apply index_Some in Hc as [? ?]. eauto.
  - intros (Hx & Hy & row & Hr & Hc).
    assert (index b y = Some row) as -> by by apply index_Some.
    by apply index_Some.
Qed.

Lemma cellAt_place_same (b : Board) (c : StoneColor) (x y : Z) (cell : GameBoardCell) :
  cellAt b x y = Some cell ->
  cellAt (place c x y b) x y = Some (set_stone (Some c) cell).
Proof.
  intros (Hx & Hy & row & Hr & Hc)%cellAt_Some. apply cellAt_Some.
  split; [done|]. split; [done|]. exists (alter (set_stone (Some c)) (Z.to_nat x) row).
  unfold place, updateCell. split.
  - by rewrite list_lookup_alter_eq, Hr.
  - by rewrite list_lookup_alter_eq, Hc.
Qed.

Lemma cellAt_place_other (b : Board) (c : StoneColor) (x y x' y' : Z) :
  0 <= x -> 0 <= y -> (x', y') <> (x, y) ->
  cellAt (place c x y b) x' y' = cellAt b x' y'.
Proof.
  intros Hx Hy Hne. unfold cellAt, index, place, updateCell.
  destruct (Z.ltb_spec y' 0); [done|].
  destruct (decide (y' = y)) as [->|Hy'].
  - rewrite list_lookup_alter_eq. destruct (b !! Z.to_nat y) as [row|]; simpl; [|done].
    destruct (Z.ltb_spec x' 0); [done|].
    rewrite list_lookup_alter_ne; [done|]. intros E. apply Hne. f_equal. lia.
  - rewrite list_lookup_alter_ne; [done|]. lia.
Qed.

Lemma place_length (b : Board) (c : StoneColor) (x y : Z) :
  length (place c x y b) = length b.
Proof. apply length_alter. Qed.

Lemma stoneAt_place_same (b : Board) (c : StoneColor) (x y : Z) (cell : GameBoardCell) :
  cellAt b x y = Some cell -> stoneAt (place c x y b) (x, y) = Some c.
Proof. intros H. unfold stoneAt; simpl. by rewrite (cellAt_place_same _ _ _ _ _ H). Qed.

Lemma stoneAt_place_other (b : Board) (c : StoneColor) (x y : Z) (p : Coord) :
  0 <= x -> 0 <= y -> p <> (x, y) -> stoneAt (place c x y b) p = stoneAt b p.
Proof.
  intros. unfold stoneAt. rewrite cellAt_place_other; auto. by destruct p.
Qed.

Lemma isEmpty_place_other (b : Board) (c : StoneColor) (x y : Z) (p : Coord) :
  0 <= x -> 0 <= y -> p <> (x, y) -> isEmpty (place c x y b) p = isEmpty b p.
Proof.
  intros. unfold isEmpty. rewrite cellAt_place_other; auto. by destruct p.
Qed.

(** ** The flood fill computes the connected group *)

Lemma coord_eqb_eq (p q : Coord) : coord_eqb p q = true <-> p = q.
Proof.
  destruct p as [x y], q as [x' y']. unfold coord_eqb; simpl.
  rewrite andb_true_iff, !Z.eqb_eq. split; [intros [-> ->]; done | by inversion 1].
Qed.

Lemma mem_elem_of (p : Coord) (l : list Coord) : mem p l = true <-> p ∈ l.
Proof.
  unfold mem. rewrite existsb_exists. setoid_rewrite coord_eqb_eq.
  setoid_rewrite <- list_elem_of_In.
  split; [by intros (q & Hq & ->) | intros H; by exists p].
Qed.

Lemma hasStone_true (b : Board) (c : StoneColor) (p : Coord) :
  hasStone b c p = true <-> stoneAt b p = Some c.
Proof.
  unfold hasStone. destruct (stoneAt b p) as [c'|]; [|done].
  rewrite bool_decide_eq_true. naive_solver.
Qed.

Lemma neighbours_sym (p q : Coord) : p ∈ neighbours q <-> q ∈ neighbours p.
Proof.
  destruct p as [x y], q as [x' y']. unfold neighbours; simpl.
  rewrite !elem_of_cons, !elem_of_nil.
  split; intros H; repeat destruct H as [H|H]; try done; simplify_eq;
    solve [repeat first [left; f_equal; lia | right]].
Qed.

Lemma cell_in_allCoords (b : Board) (x y : Z) (cell : GameBoardCell) :
  cellAt b x y = Some cell -> (x, y) ∈ allCoords b.
Proof.
  intros (Hx & Hy & row & Hr & Hc)%cellAt_Some.
  unfold allCoords. apply list_elem_of_In, in_concat.
  exists ((fun x => (Z.of_nat x, Z.of_nat (Z.to_nat y))) <$> seq 0 (length row)). split.
  - apply list_elem_of_In.
    apply (elem_of_lookup_imap_2
             (fun y row => (fun x => (Z.of_nat x, Z.of_nat y)) <$> seq 0 (length row))
             b row (Z.to_nat y) Hr).
  - apply list_elem_of_In, list_elem_of_fmap. exists (Z.to_nat x). split.
    + f_equal; lia.
    + apply elem_of_seq. apply lookup_lt_Some in Hc. lia.
Qed.

Lemma stone_in_allCoords (b : Board) (c : StoneColor) (p : Coord) :
  stoneAt b p = Some c -> p ∈ allCoords b.
Proof.
  unfold stoneAt. destruct p as [x y]; simpl.
  destruct (cellAt b x y) as [cell|] eqn:Hc; [|done].
  intros _. by eapply cell_in_allCoords.
Qed.

Section Flood.
Variable b : Board.
Variable c : StoneColor.

Lemma connected_stones (p q : Coord) :
  connected b c p q -> stoneAt b p = Some c /\ stoneAt b q = Some c.
Proof. induction 1 as [|q r _ [IH _]]; by split. Qed.

Lemma connected_trans (p q r : Coord) :
  connected b c p q -> connected b c q r -> connected b c p r.
Proof.
  intros Hpq Hqr. induction Hqr; [done|].
  eapply connected_step; eauto.
Qed.

Lemma connected_neighbour (p q : Coord) :
  stoneAt b p = Some c -> q ∈ neighbours p -> stoneAt b q = Some c ->
  connected b c p q.
Proof. intros. eapply connected_step; [by apply connected_refl| |]; done. Qed.

Lemma connected_sym (p q : Coord) :
  connected b c p q -> connected b c q p.
Proof.
  induction 1 as [Hp | q r Hpq IH Hr Hs]; [by apply connected_refl|].
  apply connected_trans with q; [|done].
  apply connected_neighbour; [done | by apply neighbours_sym |].
  by apply connected_stones in Hpq as [_ ?].
Qed.

(** Whatever the fuel, the fill only collects stones connected to a work
    item. *)
Lemma flood_sound (fuel : nat) :
  forall (work seen : list Coord) (s : Coord),
    s ∈ flood fuel b c work seen ->
    s ∈ seen \/ exists w, w ∈ work /\ connected b c w s.
Proof.
  induction fuel as [|fuel IH]; intros work seen s; cbn [flood]; [by left|].
  destruct work as [|p work']; [by left|].
  destruct (hasStone b c p && negb (mem p seen)) eqn:Hp.
  - apply andb_true_iff in Hp as [Hp _]. apply hasStone_true in Hp.
    intros [Hs|(w & Hw & Hc)]%IH.
    + apply elem_of_cons in Hs as [->|Hs]; [|by left].
      right. exists p. split; [left | by apply connected_refl].
    + right. apply elem_of_app in Hw as [Hw|Hw].
      * exists p. split; [left|].
        apply connected_trans with w; [|done].
        apply connected_neighbour; [done..|].
        by apply connected_stones in Hc as [? _].
      * exists w. split; [by right | done].
  - intros [Hs|(w & Hw & Hc)]%IH; [by left|].
    right. exists w. split; [by right | done].
Qed.

Lemma seen_bounded (seen : list Coord) :
  NoDup seen -> (forall s, s ∈ seen -> stoneAt b s = Some c) ->
  (length seen <= length (allCoords b))%nat.
Proof.
  intros Hnd Hst. apply submseteq_length, NoDup_submseteq; [done|].
  intros s Hs. eapply stone_in_allCoords; eauto.
Qed.

(** With enough fuel the fill ends on an empty work list: the result
    holds the work items that carry a stone and is closed under
    neighbours of the colour. *)
Lemma flood_closed (fuel : nat) :
  forall (work seen : list Coord),
    NoDup seen ->
    (forall s, s ∈ seen -> stoneAt b s = Some c) ->
    (length work + 4 * length (allCoords b) < fuel + 4 * length seen)%nat ->
    (forall s n, s ∈ seen -> n ∈ neighbours s -> stoneAt b n = Some c ->
                 n ∈ seen \/ n ∈ work) ->
    let r := flood fuel b c work seen in
    (forall s, s ∈ seen -> s ∈ r) /\
    (forall w, w ∈ work -> stoneAt b w = Some c -> w ∈ r) /\
    (forall s n, s ∈ r -> n ∈ neighbours s -> stoneAt b n = Some c -> n ∈ r).
Proof.
  induction fuel as [|fuel IH]; intros work seen Hnd Hst Hfuel Hcl.
  { pose proof (seen_bounded seen Hnd Hst). simpl in Hfuel. lia. }
  cbn [flood]. destruct work as [|p work'].
  { split; [done|]. split; [by intros w Hw; apply elem_of_nil in Hw|].
    intros s n Hs Hn Hc. destruct (Hcl s n Hs Hn Hc) as [?|H]; [done|].
    by apply elem_of_nil in H. }
  destruct (hasStone b c p && negb (mem p seen)) eqn:Hp.
  - apply andb_true_iff in Hp as [Hp Hm]. apply hasStone_true in Hp.
    apply negb_true_iff in Hm.
    assert (p ∉ seen) as Hnotin.
    { intros Hin%mem_elem_of. congruence. }
    destruct (IH (neighbours p ++ work') (p :: seen)) as (Hseen & Hwork & Hclosed).
    + by apply NoDup_cons_2.
    + intros s [->|Hs]%elem_of_cons; auto.
    + rewrite length_app. simpl in *. lia.
    + intros s n [->|Hs]%elem_of_cons Hn Hc.
      * right. apply elem_of_app. by left.
      * destruct (Hcl s n Hs Hn Hc) as [?|[->|?]%elem_of_cons].
        -- left. by right.
        -- left. left.
        -- right. apply elem_of_app. by right.
    + split; [intros s Hs; apply Hseen; by right|]. split; [|done].
      intros w [->|Hw]%elem_of_cons Hc.
      * apply Hseen. left.
      * apply Hwork; [|done]. apply elem_of_app. by right.
  - assert (stoneAt b p = Some c -> p ∈ seen) as Hpin.
    { intros Hs%hasStone_true. rewrite Hs in Hp. simpl in Hp.
      apply negb_false_iff in Hp. by apply mem_elem_of. }
    destruct (IH work' seen) as (Hseen & Hwork & Hclosed); [done..| | |].
    + simpl in Hfuel. lia.
    + intros s n Hs Hn Hc. destruct (Hcl s n Hs Hn Hc) as [?|[->|?]%elem_of_cons]; auto.
    + split; [done|]. split; [|done].
      intros w [->|Hw]%elem_of_cons Hc; auto.
Qed.
End Flood.

(** [groupAt] is the set of the stones connected to its argument. *)
Lemma groupAt_connected (b : Board) (c : StoneColor) (p q : Coord) :
  stoneAt b p = Some c -> (q ∈ groupAt b p <-> connected b c p q).
Proof.
  intros Hp. unfold groupAt. rewrite Hp. split.
  - intros [H|(w & Hw & Hc)]%flood_sound; [by apply elem_of_nil in H|].
    by apply list_elem_of_singleton in Hw as ->.
  - destruct (flood_closed b c (4 * length (allCoords b) + 2) [p] [])
      as (_ & Hwork & Hclosed).
    + constructor.
    + by intros s Hs%elem_of_nil.
    + simpl. lia.
    + by intros s n Hs%elem_of_nil.
    + induction 1 as [Hp' | q r Hpq IH Hr Hs].
      * apply Hwork; [left | done].
      * eapply Hclosed; eauto.
Qed.

Lemma groupAt_empty (b : Board) (p : Coord) :
  stoneAt b p = None -> groupAt b p = [].
Proof. intros H. unfold groupAt. by rewrite H. Qed.

Lemma dedup_elem_of (l : list Coord) (p : Coord) : p ∈ dedup l <-> p ∈ l.
Proof.
  induction l as [|q l IH]; simpl; [done|].
  destruct (mem q l) eqn:Hm.
  - rewrite IH, elem_of_cons. apply mem_elem_of in Hm.
    split; [by right | by intros [->|?]].
  - rewrite !elem_of_cons, IH. done.
Qed.

Lemma dedup_NoDup (l : list Coord) : NoDup (dedup l).
Proof.
  induction l as [|q l IH]; simpl; [constructor|].
  destruct (mem q l) eqn:Hm; [done|].
  apply NoDup_cons_2; [|done].
  rewrite dedup_elem_of. intros H%mem_elem_of. congruence.
Qed.

(** [libertiesAt] lists, once each, the liberties of the group. *)
Lemma libertiesAt_isLiberty (b : Board) (p l : Coord) :
  l ∈ libertiesAt b p <-> isLiberty b p l.
Proof.
  unfold libertiesAt, isLiberty. rewrite dedup_elem_of, list_elem_of_filter.
  rewrite list_elem_of_In, in_concat. split.
  - intros (He & nb & Hnb & Hl). apply list_elem_of_In in Hnb, Hl.
    apply list_elem_of_fmap in Hnb as (q & -> & Hq).
    destruct (stoneAt b p) as [c|] eqn:Hp.
    + exists c, q. split; [by apply groupAt_connected|done].
    + rewrite groupAt_empty in Hq by done. by apply elem_of_nil in Hq.
  - intros (c & q & Hc & Hl & He). split; [done|].
    exists (neighbours q). split; apply list_elem_of_In; [|done].
    apply list_elem_of_fmap. exists q. split; [done|].
    apply groupAt_connected with c; [|done]. by apply connected_stones in Hc as [? _].
Qed.

Lemma libertiesAt_NoDup (b : Board) (p : Coord) : NoDup (libertiesAt b p).
Proof. apply dedup_NoDup. Qed.

Lemma libertyCount_pos (b : Board) (p : Coord) :
  1 <= libertyCount b p <-> exists l, isLiberty b p l.
Proof.
  unfold libertyCount. setoid_rewrite <- libertiesAt_isLiberty.
  destruct (libertiesAt b p) as [|l ls]; simpl.
  - split; [lia | intros [l Hl]; by apply elem_of_nil in Hl].
  - split; [intros _; exists l; left | lia].
Qed.

Lemma libertyCount_nonneg (b : Board) (p : Coord) : 0 <= libertyCount b p.
Proof. unfold libertyCount. lia. Qed.

(** ** The concrete session is what the routes give *)

Example created_is_saved : saved (createRoute "g-1" body9 alice 100) = Some created.
Proof. reflexivity. Qed.

Example started_is_active :
  status started = active /\ currentTurn (boardState started) = black /\
  map color (players started) = [black; white] /\
  length (board (boardState started)) = 9%nat /\
  layout (board (boardState started)) = replicate 9 (replicate 9 None) /\
  gameRules started = mkRules false standard territory.
Proof. vm_compute. repeat split. Qed.

(** The liberties written at initialization: 2 in the corners, 3 on the
    edges, 4 inside. *)
Example started_liberties :
  map (map liberties) (board (boardState started)) =
  [[2; 3; 3; 3; 3; 3; 3; 3; 2]] ++ replicate 7 [3; 4; 4; 4; 4; 4; 4; 4; 3] ++
  [[2; 3; 3; 3; 3; 3; 3; 3; 2]].
Proof. vm_compute. reflexivity. Qed.

(** ** Rejections *)

(** C5. A call of [makeMove] or [passTurn] that fails a precondition throws
    an error that names the precondition (session not active, not the
    caller's turn, coordinates out of bounds, position occupied; a missing
    board cell raises [TypeError]) and leaves the whole document as it was:
    the document at the throw is the document of the call, so board, move
    history, move count, turn, pass counter and status are unchanged. Every
    call that does not meet the acceptance conditions is rejected in this
    way. *)
Theorem rejected_operation_leaves_session_unchanged
    (pid : ObjectId) (x y : Z) (c : StoneColor) (t1 t2 : Date) (g g' : Game) (e : Exn) :
  (makeMove pid x y c t1 t2 g = Thrown e g' <-> g' = g /\ MoveRejected g x y c e) /\
  (passTurn pid c t1 g = Thrown e g' <-> g' = g /\ PassRejected g c e) /\
  (~ MoveAccepted g x y c -> exists e', makeMove pid x y c t1 t2 g = Thrown e' g) /\
  (~ (status g = active /\ currentTurn (boardState g) = c) ->
   exists e', passTurn pid c t1 g = Thrown e' g).
Proof.
  split; [|split; [|split]].
  - split; [apply makeMove_thrown | intros [-> Hr]; by apply makeMove_rejects].
  - split; [apply passTurn_thrown|]. intros [-> Hr].
    destruct (passTurn_cases pid c t1 g) as [(e' & Hr' & He)|(Hs & Ht & _)].
    + rewrite He. f_equal. inversion Hr; inversion Hr'; subst; first [done | congruence].
    + inversion Hr; congruence.
  - intros Hn. destruct (makeMove_cases pid x y c t1 t2 g) as [(e' & _ & He)|[Ha _]];
      [by exists e' | done].
  - intros Hn. destruct (passTurn_cases pid c t1 g) as [(e' & _ & He)|(Hs & Ht & _)];
      [by exists e' | by destruct Hn].
Qed.

(** Bob, who plays white, tries to move first in the session just started. *)
Lemma rejected_operation_witness :
  started = started /\ MoveRejected started 0 0 white (Error "Not your turn").
Proof.
  apply (proj1 (proj1 (rejected_operation_leaves_session_unchanged
                         "b0b" 0 0 white 104 104 started started (Error "Not your turn")))).
  vm_compute. reflexivity.
Defined.

(** ** The methods never return [false] *)

(** C10. [makeMove] and [passTurn] either throw, when a precondition fails,
    or return [true]; neither returns [false]. The branches of the two
    routes that answer a [false] result ("Invalid move", "Cannot pass turn")
    are therefore never taken: the routes never send these answers. *)
Theorem move_methods_never_return_false
    (pid : ObjectId) (x y : Z) (c : StoneColor) (t1 t2 : Date) (g : Game) :
  ((exists e, makeMove pid x y c t1 t2 g = Thrown e g) \/
   makeMove pid x y c t1 t2 g = Returned true (committed pid x y c t1 t2 g)) /\
  ((exists e, passTurn pid c t1 g = Thrown e g) \/
   passTurn pid c t1 g = Returned true (passed pid c t1 g)) /\
  (forall r g', makeMove pid x y c t1 t2 g = Returned r g' -> r = true) /\
  (forall r g', passTurn pid c t1 g = Returned r g' -> r = true) /\
  (forall player doc,
     response (moveRoute player x y t1 doc) <> JsonError 400 "Invalid move") /\
  (forall player doc,
     response (passRoute player t1 doc) <> JsonError 400 "Cannot pass turn").
Proof.
  repeat split.
  - destruct (makeMove_cases pid x y c t1 t2 g) as [(e & _ & He)|[_ He]]; eauto.
  - destruct (passTurn_cases pid c t1 g) as [(e & _ & He)|(_ & _ & He)]; eauto.
  - intros r g' H. by apply makeMove_returned in H as (_ & ? & _).
  - intros r g' H. by apply passTurn_returned in H as (_ & _ & ? & _).
  - intros player [game|]; [|done]. unfold moveRoute.
    destruct (negb (bool_decide (status game = active))); [done|].
    destruct (findPlayer player game) as [p|]; [|done].
    destruct (makeMove_cases (_id player) x y (color p) t1 t1 game)
      as [(e & _ & ->)|[_ ->]]; done.
  - intros player [game|]; [|done]. unfold passRoute.
    destruct (negb (bool_decide (status game = active))); [done|].
    destruct (findPlayer player game) as [p|]; [|done].
    destruct (passTurn_cases (_id player) (color p) t1 game)
      as [(e & _ & ->)|(_ & _ & ->)]; done.
Qed.

(** Alice, who plays black, opens at the corner: the call returns, and what
    it returns is [true]. *)
Lemma move_methods_witness :
  makeMove "a11ce" 0 0 black 104 104 started =
    Returned true (committed "a11ce" 0 0 black 104 104 started) /\
  true = true.
Proof.
  split; [vm_compute; reflexivity|].
  apply (proj1 (proj2 (proj2 (move_methods_never_return_false
                                "a11ce" 0 0 black 104 104 started)))
           true (committed "a11ce" 0 0 black 104 104 started)).
  vm_compute. reflexivity.
Defined.

(** ** The commit of an accepted placement *)

(** C7, as stated, fails: the commit of Alice's first move also counts the
    move and records it as the last move, so the document it leaves is not
    the one that the four listed changes alone would give. *)
Lemma commit_is_not_four_changes :
  makeMove "a11ce" 2 2 black 104 105 started =
    Returned true (committed "a11ce" 2 2 black 104 105 started) /\
  committed "a11ce" 2 2 black 104 105 started <> fourChanges "a11ce" 2 2 black 104 started /\
  moveCount (boardState started) = 0 /\
  moveCount (boardState (committed "a11ce" 2 2 black 104 105 started)) = 1 /\
  lastMove (boardState started) = None /\
  lastMove (boardState (committed "a11ce" 2 2 black 104 105 started)) =
    Some (mkLastMove 2 2 black 105).
Proof.
  split; [vm_compute; reflexivity|].
  split; [|vm_compute; repeat split].
  intros H. apply (f_equal (fun g => moveCount (boardState g))) in H.
  vm_compute in H. discriminate H.
Qed.

Lemma place_shape (b : Board) (c : StoneColor) (x y : Z) :
  map length (place c x y b) = map length b.
Proof.
  unfold place, updateCell. generalize (Z.to_nat y). induction b as [|row b IH]; [done|].
  intros [|i]; simpl; f_equal; [apply length_alter | apply IH].
Qed.

(** C7, amended. An accepted placement appends the move to the history,
    puts the stone on the target intersection (the cell keeps its
    [liberties] and [groupId], every other intersection keeps its cell, the
    rows keep their lengths), resets the pass counter to 0 and gives the
    turn to the other colour; it also adds one to the move count and records
    the move as the last move. Nothing else in the document changes: the
    document left is exactly [committed], the document of the call with
    these six fields of its board state rewritten. *)
Theorem accepted_move_commit
    (pid : ObjectId) (x y : Z) (c : StoneColor) (t1 t2 : Date) (g g' : Game) (r : bool) :
  makeMove pid x y c t1 t2 g = Returned r g' ->
  g' = committed pid x y c t1 t2 g /\
  moveHistory (boardState g') =
    moveHistory (boardState g) ++ [mkMove pid c x y t1 [] false] /\
  stoneAt (board (boardState g')) (x, y) = Some c /\
  (exists cell,
     cellAt (board (boardState g)) x y = Some cell /\ stone cell = None /\
     cellAt (board (boardState g')) x y =
       Some (mkCell (Some c) (liberties cell) (groupId cell))) /\
  (forall x' y', (x', y') <> (x, y) ->
     cellAt (board (boardState g')) x' y' = cellAt (board (boardState g)) x' y') /\
  map length (board (boardState g')) = map length (board (boardState g)) /\
  consecutivePasses (boardState g') = 0 /\
  currentTurn (boardState g') = opposite c /\
  moveCount (boardState g') = moveCount (boardState g) + 1 /\
  lastMove (boardState g') = Some (mkLastMove x y c t2) /\
  capturedStones (boardState g') = capturedStones (boardState g) /\
  gameId g' = gameId g /\ status g' = status g /\ players g' = players g /\
  gameSettings g' = gameSettings g /\ gameRules g' = gameRules g /\
  metadata g' = metadata g /\ chat g' = chat g /\ updatedAt g' = updatedAt g.
Proof.
  intros ((Hs & Ht & [[Hx _] [Hy _]] & cell & Hc & He) & _ & ->)%makeMove_returned.
  simpl. repeat split.
  - by eapply stoneAt_place_same.
  - exists cell. split; [done|]. split; [done|]. by apply cellAt_place_same.
  - intros x' y' Hne. by apply cellAt_place_other.
  - apply place_shape.
Qed.

Lemma accepted_move_commit_witness :
  moveHistory (boardState (committed "a11ce" 2 2 black 104 105 started)) =
    moveHistory (boardState started) ++ [mkMove "a11ce" black 2 2 104 [] false] /\
  moveCount (boardState (committed "a11ce" 2 2 black 104 105 started)) =
    moveCount (boardState started) + 1.
Proof.
  destruct (accepted_move_commit "a11ce" 2 2 black 104 105 started
              (committed "a11ce" 2 2 black 104 105 started) true)
    as (_ & Hh & _ & _ & _ & _ & _ & _ & Hm & _).
  - vm_compute. reflexivity.
  - split; [exact Hh | exact Hm].
Defined.

(** ** What a game never touches *)

Lemma validBoardSize_cases (n : Z) :
  validBoardSize n = true -> n = 9 \/ n = 13 \/ n = 19.
Proof. unfold validBoardSize. rewrite !orb_true_iff, !Z.eqb_eq. tauto. Qed.

Lemma initializeBoard_valid (g : Game) :
  validBoardSize (boardSize (gameSettings g)) = true ->
  initializeBoard g =
    Returned tt (set_boardState
                   (set_board (initialBoard (boardSize (gameSettings g))) (boardState g)) g).
Proof.
  intros H. destruct g as [gid st pl [n s2 s3 s4 s5 s6 s7] bs gr md ch upd].
  simpl in H. apply validBoardSize_cases in H as [-> | [-> | ->]]; vm_compute; reflexivity.
Qed.

Lemma frame_place (b : Board) (c : StoneColor) (x y : Z) :
  frame (place c x y b) = frame b.
Proof.
  unfold frame, place, updateCell.
  rewrite (list_fmap_alter _ _ id); [by rewrite list_alter_id|].
  apply Forall_forall. intros row _.
  rewrite (list_fmap_alter _ _ id); [by rewrite list_alter_id|].
  apply Forall_forall. by intros cell _.
Qed.

Lemma addPlayer_cases (pd : GamePlayerData) (now : Date) (g : Game) :
  addPlayer pd now g =
    if 2 <=? Z.of_nat (length (players g)) then Thrown (Error "Game is full") g
    else Returned tt (set_players
           (players g ++ [mkPlayer (pd_playerId pd) (pd_username pd) (pd_displayName pd)
                            (if Z.of_nat (length (players g)) =? 0 then black else white)
                            false true now None 0 0]) g).
Proof.
  unfold addPlayer, mbind, M_bind, bind, this; simpl.
  by destruct (2 <=? Z.of_nat (length (players g))).
Qed.

Lemma startGame_valid (now : Date) (g : Game) :
  validBoardSize (boardSize (gameSettings g)) = true ->
  startGame now g =
    if negb (Z.of_nat (length (players g)) =? 2)
    then Thrown (Error "Need exactly 2 players to start") g
    else if negb (forallb isReady (players g))
    then Thrown (Error "All players must be ready") g
    else Returned tt
           (set_boardState
              (set_board (initialBoard (boardSize (gameSettings g))) (boardState g))
              (set_metadata (set_startedAt (Some now) (metadata g)) (set_status active g))).
Proof.
  intros Hv. unfold startGame, mbind, M_bind, bind, this; simpl.
  destruct (negb (Z.of_nat (length (players g)) =? 2)); [done|]; simpl.
  destruct (negb (forallb isReady (players g))); [done|]; simpl.
  unfold assign. by rewrite initializeBoard_valid.
Qed.

Lemma Untouched_save (now : Date) (g : Game) : Untouched g -> Untouched (save now g).
Proof. by intros []. Qed.

Lemma markReady_Forall (P : GamePlayer -> Prop) (id : ObjectId) (ps : list GamePlayer) :
  (forall p, P p -> P (set_isReady true p)) -> Forall P ps -> Forall P (markReady id ps).
Proof.
  intros HP. induction 1 as [|q ps Hq Hps IH]; simpl; [done|].
  destruct (String.eqb (playerId q) id); constructor; auto.
Qed.

Lemma Untouched_created (uuid : string) (body : CreateBody) (creator : AuthPlayer)
    (now : Date) (g0 : Game) :
  saved (createRoute uuid body creator now) = Some g0 -> Untouched g0.
Proof.
  unfold createRoute. rewrite addPlayer_cases; simpl.
  destruct (validBoardSize (cb_boardSize body)) eqn:Hv; [|done].
  intros [= <-]. split; simpl; auto. lia.
Qed.

Lemma Untouched_persist (g : Game) (r : Request) : Untouched g -> Untouched (persist g r).
Proof.
  intros Hu. unfold persist. destruct r as [p now|p now|p x y now|p now]; simpl.
  - unfold joinRoute.
    destruct (negb (bool_decide (status g = waiting))); [done|].
    destruct (2 <=? Z.of_nat (length (players g))) eqn:Hfull; [done|].
    destruct (existsb _ (players g)); [done|].
    rewrite addPlayer_cases, Hfull; simpl.
    apply Untouched_save. destruct Hu. split; simpl; auto.
    apply Forall_app. split; [done|]. by repeat constructor.
  - unfold readyRoute. destruct (findPlayer p g); [|done].
    set (g1 := save now (set_players (markReady (_id p) (players g)) g)).
    assert (Untouched g1) as Hu1.
    { apply Untouched_save. destruct Hu. split; simpl; auto.
      apply markReady_Forall; [|done]. by intros q. }
    destruct ((Z.of_nat (length (markReady (_id p) (players g))) =? 2) &&
              forallb isReady (markReady (_id p) (players g))) eqn:Hready;
      [|exact Hu1].
    rewrite startGame_valid by by destruct Hu1.
    change (players g1) with (markReady (_id p) (players g)).
    apply andb_true_iff in Hready as [-> ->]. simpl.
    apply Untouched_save. destruct Hu1. split; simpl; auto.
  - unfold moveRoute.
    case_status g active; [|done].
    destruct (findPlayer p g) as [q|]; [|done].
    destruct (makeMove_cases (_id p) x y (color q) now now g) as [(e & _ & ->)|[_ ->]];
      [done|]. simpl.
    apply Untouched_save. destruct Hu as [? ? ? ? ? Hf]. split; simpl; auto.
    + apply Forall_app. split; [done|]. by repeat constructor.
    + lia.
    + destruct Hf as [[Hw _]|Hf]; [congruence|].
      right. by rewrite frame_place.
  - unfold passRoute.
    case_status g active; [|done].
    destruct (findPlayer p g) as [q|]; [|done].
    destruct (passTurn_cases (_id p) (color q) now g) as [(e & _ & ->)|(_ & _ & ->)];
      [done|]. simpl.
    apply Untouched_save. destruct Hu as [? ? ? ? ? Hf]. unfold passed.
    assert (frame (board (boardState g)) =
            frame (initialBoard (boardSize (gameSettings g)))) as Hf'.
    { destruct Hf as [[Hw _]|Hf]; [congruence | done]. }
    destruct (2 <=? consecutivePasses (boardState g) + 1); split; simpl; auto; try lia;
      apply Forall_app; split; [done| |done|]; by repeat constructor.
Qed.

Lemma Untouched_run (g : Game) (rs : list Request) : Untouched g -> Untouched (run g rs).
Proof.
  revert g. induction rs as [|r rs IH]; intros g Hu; [done|].
  simpl. apply IH. by apply Untouched_persist.
Qed.

(** C9. An accepted [makeMove] changes the stone of the target cell and the
    bookkeeping fields [moveCount], [currentTurn], [lastMove],
    [consecutivePasses] and [moveHistory], and nothing else: the target cell
    keeps its [liberties] and [groupId], every other cell is unchanged, the
    [capturedStones] counters are unchanged and the move is recorded with an
    empty [capturedStones] list. Over a whole game, from the creation of the
    session and whatever requests follow, the counters stay at 0, every
    recorded move has an empty [capturedStones] list, and the [liberties]
    and [groupId] of every cell are those written by [initializeBoard]. *)
Theorem makeMove_touches_stone_and_bookkeeping_only :
  (forall (pid : ObjectId) (x y : Z) (c : StoneColor) (t1 t2 : Date) (g g' : Game) (r : bool),
     makeMove pid x y c t1 t2 g = Returned r g' ->
     (exists cell,
        cellAt (board (boardState g)) x y = Some cell /\ stone cell = None /\
        cellAt (board (boardState g')) x y =
          Some (mkCell (Some c) (liberties cell) (groupId cell))) /\
     (forall x' y', (x', y') <> (x, y) ->
        cellAt (board (boardState g')) x' y' = cellAt (board (boardState g)) x' y') /\
     frame (board (boardState g')) = frame (board (boardState g)) /\
     capturedStones (boardState g') = capturedStones (boardState g) /\
     (exists m, moveHistory (boardState g') = moveHistory (boardState g) ++ [m] /\
                mv_capturedStones m = []) /\
     gameId g' = gameId g /\ status g' = status g /\ players g' = players g /\
     gameSettings g' = gameSettings g /\ gameRules g' = gameRules g /\
     metadata g' = metadata g /\ chat g' = chat g /\ updatedAt g' = updatedAt g) /\
  (forall (uuid : string) (body : CreateBody) (creator : AuthPlayer) (now : Date)
          (g0 : Game) (rs : list Request),
     saved (createRoute uuid body creator now) = Some g0 ->
     capturedStones (boardState (run g0 rs)) = mkCapturedStones 0 0 /\
     Forall (fun p => pl_capturedStones p = 0) (players (run g0 rs)) /\
     Forall (fun m => mv_capturedStones m = []) (moveHistory (boardState (run g0 rs))) /\
     ((status (run g0 rs) = waiting /\ board (boardState (run g0 rs)) = []) \/
      frame (board (boardState (run g0 rs))) =
        frame (initialBoard (boardSize (gameSettings (run g0 rs)))))).
Proof.
  split.
  - intros pid x y c t1 t2 g g' r
      ((Hs & Ht & [[Hx _] [Hy _]] & cell & Hc & He) & _ & ->)%makeMove_returned.
    simpl. repeat split.
    + exists cell. split; [done|]. split; [done|]. by apply cellAt_place_same.
    + intros x' y' Hne. by apply cellAt_place_other.
    + apply frame_place.
    + by eexists.
  - intros uuid body creator now g0 rs Hc.
    destruct (Untouched_run g0 rs (Untouched_created _ _ _ _ _ Hc)) as [_ Hcap Hh Hp _ Hf].
    repeat split; [done| |done..].
    eapply List.Forall_impl; [|exact Hp]. by intros p [? _].
Qed.

(** The session after three placements: the counters, the recorded moves
    and the cells' [liberties] are as at initialization. *)
Lemma makeMove_frame_witness :
  capturedStones (boardState (run created
    [Join bob 101; Ready alice 102; Ready bob 103;
     Move alice 1 0 104; Move bob 0 0 105; Move alice 0 1 106])) = mkCapturedStones 0 0.
Proof.
  apply (proj2 makeMove_touches_stone_and_bookkeeping_only
           "g-1"%string body9 alice 100 created
           [Join bob 101; Ready alice 102; Ready bob 103;
            Move alice 1 0 104; Move bob 0 0 105; Move alice 0 1 106]).
  reflexivity.
Defined.

(** ** Groups and liberties across a placement *)

Lemma opposite_cases (c c' : StoneColor) : c' = c \/ c' = opposite c.
Proof. destruct c, c'; auto. Qed.

Lemma opposite_ne (c : StoneColor) : opposite c <> c.
Proof. by destruct c. Qed.

Section Placement.
Variable b : Board.
Variable c : StoneColor.
Variables x y : Z.
Variable cell : GameBoardCell.
Hypothesis Hx : 0 <= x.
Hypothesis Hy : 0 <= y.
Hypothesis Hcell : cellAt b x y = Some cell.
Hypothesis Hfree : stone cell = None.

Lemma target_was_empty : stoneAt b (x, y) = None /\ isEmpty b (x, y) = true.
Proof. unfold stoneAt, isEmpty; simpl. by rewrite Hcell, Hfree. Qed.

Lemma target_is_taken :
  stoneAt (place c x y b) (x, y) = Some c /\ isEmpty (place c x y b) (x, y) = false.
Proof.
  unfold stoneAt, isEmpty; simpl. by rewrite (cellAt_place_same _ _ _ _ _ Hcell).
Qed.

Lemma stone_persists (p : Coord) (c' : StoneColor) :
  stoneAt b p = Some c' -> stoneAt (place c x y b) p = Some c'.
Proof.
  intros Hp. rewrite stoneAt_place_other; [done..|].
  intros ->. destruct target_was_empty. congruence.
Qed.

Lemma stone_after (p : Coord) (c' : StoneColor) :
  stoneAt (place c x y b) p = Some c' ->
  (p = (x, y) /\ c' = c) \/ (p <> (x, y) /\ stoneAt b p = Some c').
Proof.
  intros Hp. destruct (decide (p = (x, y))) as [->|Hne].
  - left. destruct target_is_taken. split; congruence.
  - right. by rewrite stoneAt_place_other in Hp.
Qed.

Lemma connected_persists (c' : StoneColor) (p q : Coord) :
  connected b c' p q -> connected (place c x y b) c' p q.
Proof.
  induction 1 as [Hp | q r Hpq IH Hr Hs].
  - apply connected_refl. by apply stone_persists.
  - eapply connected_step; [done..|]. by apply stone_persists.
Qed.

(** A group of the new board that does not contain the new stone is a
    group of the old board. *)
Lemma connected_before (c' : StoneColor) (p q : Coord) :
  connected (place c x y b) c' p q ->
  (forall r, connected (place c x y b) c' p r -> r <> (x, y)) ->
  connected b c' p q.
Proof.
  intros Hpq Hav. induction Hpq as [Hp | q r Hpq IH Hr Hs].
  - apply connected_refl.
    destruct (stone_after _ _ Hp) as [[-> _]|[_ ?]]; [|done].
    by destruct (Hav (x, y) (connected_refl _ _ _ Hp)).
  - eapply connected_step; [by apply IH | done |].
    destruct (stone_after _ _ Hs) as [[-> _]|[_ ?]]; [|done].
    by destruct (Hav (x, y) (connected_step _ _ _ _ _ Hpq Hr Hs)).
Qed.

(** The groups of the other colour are, stone for stone, what they were. *)
Lemma opposing_group_unchanged (p q : Coord) :
  connected (place c x y b) (opposite c) p q <-> connected b (opposite c) p q.
Proof.
  split; [|apply connected_persists].
  intros Hpq. apply connected_before; [done|].
  intros r Hr ->. apply connected_stones in Hr as [_ Hr].
  destruct target_is_taken as [Ht _]. rewrite Ht in Hr.
  injection Hr as Hr. by destruct (opposite_ne c).
Qed.

Lemma empty_after (l : Coord) :
  isEmpty b l = true -> l <> (x, y) -> isEmpty (place c x y b) l = true.
Proof. intros He Hne. by rewrite isEmpty_place_other. Qed.

(** If every group had a liberty, and the new stone's group and the
    opposing groups next to the new stone have one on the new board, then
    every group of the new board has one. *)
Lemma liberties_preserved :
  (forall p, stoneAt b p <> None -> exists l, isLiberty b p l) ->
  (exists l, isLiberty (place c x y b) (x, y) l) ->
  (forall n, n ∈ neighbours (x, y) -> stoneAt (place c x y b) n = Some (opposite c) ->
             exists l, isLiberty (place c x y b) n l) ->
  forall p, stoneAt (place c x y b) p <> None -> exists l, isLiberty (place c x y b) p l.
Proof.
  intros Hold Hown Hopp p Hp.
  destruct (stoneAt (place c x y b) p) as [c'|] eqn:Hs; [clear Hp|done].
  destruct (mem (x, y) (groupAt (place c x y b) p)) eqn:Hm.
  - (* the group of [p] is the group of the new stone *)
    apply mem_elem_of, (groupAt_connected _ c') in Hm; [|done].
    destruct Hown as (l & c0 & q & Hc0 & Hl & He).
    assert (c0 = c) as ->.
    { apply connected_stones in Hc0 as [Hc0 _].
      destruct target_is_taken as [Ht _]. congruence. }
    assert (c' = c) as ->.
    { apply connected_stones in Hm as [_ Hm'].
      destruct target_is_taken as [Ht _]. congruence. }
    exists l, c, q. split; [by apply connected_trans with (x, y) | done].
  - (* the group of [p] does not contain the new stone *)
    assert (forall r, connected (place c x y b) c' p r -> r <> (x, y)) as Hav.
    { intros r Hr ->. apply (groupAt_connected _ _ _ _ Hs), mem_elem_of in Hr.
      congruence. }
    assert (stoneAt b p = Some c') as Hsb.
    { destruct (stone_after _ _ Hs) as [[-> _]|[_ ?]]; [|done].
      by destruct (Hav (x, y) (connected_refl _ _ _ Hs)). }
    destruct (Hold p) as (l & c0 & q & Hc0 & Hl & He); [congruence|].
    assert (c0 = c') as ->.
    { apply connected_stones in Hc0 as [Hc0 _]. congruence. }
    pose proof (connected_persists _ _ _ Hc0) as Hq.
    destruct (decide (l = (x, y))) as [->|Hne].
    2: { exists l, c', q. split; [done|]. split; [done | by apply empty_after]. }
    destruct (opposite_cases c c') as [->| ->].
    + (* a stone of the mover's colour next to the new stone joins its group *)
      exfalso. apply (Hav (x, y)); [|done].
      eapply connected_step; [exact Hq | done |].
      by destruct target_is_taken.
    + destruct (Hopp q) as (l' & c1 & q' & Hc1 & Hl' & He').
      * by apply neighbours_sym.
      * by apply connected_stones in Hq as [_ ?].
      * assert (c1 = opposite c) as ->.
        { apply connected_stones in Hc1 as [Hc1 _].
          apply connected_stones in Hq as [_ Hq']. congruence. }
        exists l', (opposite c), q'.
        split; [by apply connected_trans with q | done].
Qed.
End Placement.

Lemma allGroupsAlive_spec (b : Board) :
  allGroupsAlive b = true <->
  forall p, stoneAt b p <> None -> 1 <= libertyCount b p.
Proof.
  unfold allGroupsAlive. rewrite forallb_forall. split.
  - intros H p Hp. destruct (stoneAt b p) as [c|] eqn:Hs; [|done].
    specialize (H p). rewrite Hs in H. apply Z.leb_le, H, list_elem_of_In.
    by eapply stone_in_allCoords.
  - intros H p _. destruct (stoneAt b p) as [c|] eqn:Hs; [|done].
    apply Z.leb_le, H. congruence.
Qed.

(** ** Capture *)

(** C1, as stated, fails. Black's move at (1,2) is accepted and takes the
    last liberty of the single white stone at (1,1). The stone is still on
    the board, the move is recorded with no captured coordinate, and the
    counters of captured stones, of the session and of the players, are
    still 0. *)
Lemma surrounded_stone_is_not_captured :
  stoneAt (board (boardState surrounding)) (1, 1) = Some white /\
  groupAt (board (boardState surrounding)) (1, 1) = [(1, 1)] /\
  libertiesAt (board (boardState surrounding)) (1, 1) = [(1, 2)] /\
  makeMove "a11ce" 1 2 black 110 110 surrounding = Returned true surrounded /\
  response (handle (Move alice 1 2 110) (Some surrounding)) =
    JsonOk 200 "Move made successfully" /\
  libertyCount (board (boardState surrounded)) (1, 1) = 0 /\
  stoneAt (board (boardState surrounded)) (1, 1) = Some white /\
  moveHistory (boardState surrounded) =
    moveHistory (boardState surrounding) ++ [mkMove "a11ce" black 1 2 110 [] false] /\
  capturedStones (boardState surrounded) = mkCapturedStones 0 0 /\
  map pl_capturedStones (players surrounded) = [0; 0].
Proof. vm_compute. repeat split. Qed.

(** C1, amended. An accepted placement removes no stone: every stone of the
    board is still there after the move, and every group of the opposing
    colour consists of the same stones as before, whatever its liberty
    count has become. The move is recorded with an empty captured-coordinate
    set, and the [capturedStones] counters of the session and of the players
    are unchanged. *)
Theorem accepted_move_captures_nothing
    (pid : ObjectId) (x y : Z) (c : StoneColor) (t1 t2 : Date) (g g' : Game) (r : bool) :
  makeMove pid x y c t1 t2 g = Returned r g' ->
  (forall p c', stoneAt (board (boardState g)) p = Some c' ->
                stoneAt (board (boardState g')) p = Some c') /\
  (forall n q, stoneAt (board (boardState g')) n = Some (opposite c) ->
               (q ∈ groupAt (board (boardState g')) n <->
                q ∈ groupAt (board (boardState g)) n)) /\
  (exists m, moveHistory (boardState g') = moveHistory (boardState g) ++ [m] /\
             mv_capturedStones m = []) /\
  capturedStones (boardState g') = capturedStones (boardState g) /\
  players g' = players g.
Proof.
  intros ((Hs & Ht & [[Hx _] [Hy _]] & cell & Hc & He) & _ & ->)%makeMove_returned.
  simpl. split; [|split; [|split; [by eexists | by split]]].
  - intros p c'. by eapply stone_persists.
  - intros n q Hn'.
    destruct (stone_after _ _ _ _ _ Hx Hy Hc _ _ Hn') as [[_ Hcol]|[_ Hn]].
    { by destruct (opposite_ne c). }
    rewrite (groupAt_connected _ _ _ _ Hn'), (groupAt_connected _ _ _ _ Hn).
    by eapply opposing_group_unchanged.
Qed.

Lemma accepted_move_captures_nothing_witness :
  stoneAt (board (boardState surrounded)) (1, 1) = Some white.
Proof.
  apply (proj1 (accepted_move_captures_nothing
                  "a11ce" 1 2 black 110 110 surrounding surrounded true
                  ltac:(vm_compute; reflexivity)) (1, 1) white).
  vm_compute. reflexivity.
Defined.

(** ** Liberties after a move *)

(** C2, as stated, fails. Before Black's move at (0,1) every group has a
    liberty; the move is accepted, and on the resulting board the white
    group made of the corner stone has liberty count 0. *)
Lemma zero_liberty_group_survives_a_move :
  allGroupsAlive (board (boardState cornered)) = true /\
  makeMove "a11ce" 0 1 black 106 106 cornered = Returned true smothered /\
  stoneAt (board (boardState smothered)) (0, 0) = Some white /\
  groupAt (board (boardState smothered)) (0, 0) = [(0, 0)] /\
  libertyCount (board (boardState smothered)) (0, 0) = 0 /\
  allGroupsAlive (board (boardState smothered)) = false.
Proof. vm_compute. repeat split. Qed.

(** C2, amended. [makeMove] computes no liberty and removes no group, so
    the invariant is kept only as far as the move itself keeps it: if every
    group had liberty count >= 1 before an accepted move and, on the
    resulting board, the group of the placed stone and every opposing group
    adjacent to the placed stone have liberty count >= 1, then every group
    of the resulting board has liberty count >= 1. *)
Theorem liberties_survive_a_harmless_move
    (pid : ObjectId) (x y : Z) (c : StoneColor) (t1 t2 : Date) (g g' : Game) (r : bool) :
  makeMove pid x y c t1 t2 g = Returned r g' ->
  (forall p, stoneAt (board (boardState g)) p <> None ->
             1 <= libertyCount (board (boardState g)) p) ->
  1 <= libertyCount (board (boardState g')) (x, y) ->
  (forall n, n ∈ neighbours (x, y) ->
             stoneAt (board (boardState g')) n = Some (opposite c) ->
             1 <= libertyCount (board (boardState g')) n) ->
  forall p, stoneAt (board (boardState g')) p <> None ->
            1 <= libertyCount (board (boardState g')) p.
Proof.
  intros ((Hs & Ht & [[Hx _] [Hy _]] & cell & Hc & He) & _ & ->)%makeMove_returned.
  simpl. intros Hold Hown Hopp p Hp.
  apply libertyCount_pos.
  apply (liberties_preserved _ _ _ _ _ Hx Hy Hc He); [| | |done].
  - intros q Hq. by apply libertyCount_pos, Hold.
  - by apply libertyCount_pos.
  - intros n Hn Hs'. by apply libertyCount_pos, Hopp.
Qed.

Lemma liberties_survive_witness :
  1 <= libertyCount (board (boardState (committed "a11ce" 4 6 black 106 106 middle))) (4, 5).
Proof.
  apply (liberties_survive_a_harmless_move
           "a11ce" 4 6 black 106 106 middle (committed "a11ce" 4 6 black 106 106 middle) true).
  - vm_compute. reflexivity.
  - apply allGroupsAlive_spec. vm_compute. reflexivity.
  - vm_compute. discriminate.
  - intros n Hn Hs. repeat (apply elem_of_cons in Hn as [->|Hn]);
      [vm_compute; discriminate | vm_compute in Hs; discriminate Hs
      | vm_compute in Hs; discriminate Hs | vm_compute in Hs; discriminate Hs
      | by apply elem_of_nil in Hn].
  - vm_compute. discriminate.
Defined.

(** ** Suicide *)

(** C4, as stated, fails. The session has the default ruleset
    ([suicideAllowed = false]). White's move into the corner leaves White's
    own group, the corner stone alone, with liberty count 0; it captures
    nothing, the two adjacent black groups keeping two liberties each. The
    move is accepted. *)
Lemma suicide_is_accepted_by_default :
  suicideAllowed (gameRules boxed) = false /\
  makeMove "b0b" 0 0 white 107 107 boxed = Returned true suicide /\
  response (handle (Move bob 0 0 107) (Some boxed)) = JsonOk 200 "Move made successfully" /\
  groupAt (board (boardState suicide)) (0, 0) = [(0, 0)] /\
  libertyCount (board (boardState suicide)) (0, 0) = 0 /\
  libertyCount (board (boardState suicide)) (1, 0) = 2 /\
  libertyCount (board (boardState suicide)) (0, 1) = 2 /\
  layout (board (boardState suicide)) = layout (place white 0 0 (board (boardState boxed))).
Proof. vm_compute. repeat split. Qed.

(** C4, amended. [makeMove] does not read [suicideAllowed]. A placement
    that meets the four preconditions (session active, mover's turn,
    coordinates in bounds, intersection empty) and leaves the placed
    stone's group with liberty count 0 is accepted when [suicideAllowed] is
    [false] as it is when [suicideAllowed] is [true], and the group is on
    the resulting board with liberty count 0. *)
Theorem suicide_is_accepted_under_either_ruleset
    (pid : ObjectId) (x y : Z) (c : StoneColor) (t1 t2 : Date) (g : Game) (allowed : bool) :
  MoveAccepted g x y c ->
  libertyCount (place c x y (board (boardState g))) (x, y) = 0 ->
  makeMove pid x y c t1 t2 (withSuicideAllowed allowed g) =
    Returned true (committed pid x y c t1 t2 (withSuicideAllowed allowed g)) /\
  stoneAt (board (boardState (committed pid x y c t1 t2 (withSuicideAllowed allowed g))))
          (x, y) = Some c /\
  libertyCount (board (boardState (committed pid x y c t1 t2 (withSuicideAllowed allowed g))))
               (x, y) = 0.
Proof.
  intros Ha Hz. split; [by apply makeMove_accepts|].
  destruct Ha as (_ & _ & _ & cell & Hc & _). simpl.
  split; [by eapply stoneAt_place_same | done].
Qed.

Lemma suicide_witness :
  makeMove "b0b" 0 0 white 107 107 (withSuicideAllowed false boxed) =
    Returned true (committed "b0b" 0 0 white 107 107 (withSuicideAllowed false boxed)) /\
  makeMove "b0b" 0 0 white 107 107 (withSuicideAllowed true boxed) =
    Returned true (committed "b0b" 0 0 white 107 107 (withSuicideAllowed true boxed)).
Proof.
  assert (MoveAccepted boxed 0 0 white) as Ha.
  { split; [by vm_compute|]. split; [by vm_compute|]. split; [by vm_compute|].
    eexists. split; by vm_compute. }
  assert (libertyCount (place white 0 0 (board (boardState boxed))) (0, 0) = 0) as Hz
    by (vm_compute; reflexivity).
  split.
  - exact (proj1 (suicide_is_accepted_under_either_ruleset
                    "b0b" 0 0 white 107 107 boxed false Ha Hz)).
  - exact (proj1 (suicide_is_accepted_under_either_ruleset
                    "b0b" 0 0 white 107 107 boxed true Ha Hz)).
Defined.

(** ** Ko *)

(** C3, as stated, fails, under either ko rule. Two plies were played:
    Alice's stone at the corner and Bob's pass. Both left the layout
    [cornerStone]. Alice now plays the corner again, on the board that her
    second [ready] has emptied. The resulting position, layout and colour
    to move, is the position that her first move left, one ply before the
    current one; its layout is also the layout that the last ply left. The
    move is accepted. *)
Lemma repeated_position_is_accepted :
  koRule (gameRules koSession) = standard /\
  status koSession = active /\
  recorded created koRequests = [(cornerStone, white); (cornerStone, black)] /\
  resulting koSession black 0 0 = (cornerStone, white) /\
  makeMove "a11ce" 0 0 black 107 107 koSession =
    Returned true (committed "a11ce" 0 0 black 107 107 koSession) /\
  response (handle (Move alice 0 0 107) (Some koSession)) =
    JsonOk 200 "Move made successfully" /\
  koRule (gameRules superkoSession) = superko /\
  status superkoSession = active /\
  recorded createdSuperko koRequests = [(cornerStone, white); (cornerStone, black)] /\
  resulting superkoSession black 0 0 = (cornerStone, white) /\
  makeMove "a11ce" 0 0 black 107 107 superkoSession =
    Returned true (committed "a11ce" 0 0 black 107 107 superkoSession) /\
  response (handle (Move alice 0 0 107) (Some superkoSession)) =
    JsonOk 200 "Move made successfully".
Proof. vm_compute. repeat split. Qed.

(** C3, amended. [makeMove] reads neither [koRule] nor the move history, and
    the session keeps no earlier position. Under either ko rule and whatever
    the history, a placement is accepted exactly when the session is
    active, it is the mover's turn, the coordinates are in bounds and the
    intersection is empty, and it is rejected for the same reason as under
    any other ko rule and history; no rejection is a ko violation. *)
Theorem ko_rule_is_not_consulted
    (pid : ObjectId) (x y : Z) (c : StoneColor) (t1 t2 : Date) (g : Game)
    (rule : KoRule) (h : list GameMoveHistory) :
  (MoveAccepted g x y c <->
   makeMove pid x y c t1 t2 (withKo rule h g) =
     Returned true (committed pid x y c t1 t2 (withKo rule h g))) /\
  (forall e, makeMove pid x y c t1 t2 (withKo rule h g) = Thrown e (withKo rule h g) <->
             makeMove pid x y c t1 t2 g = Thrown e g) /\
  (forall e g', makeMove pid x y c t1 t2 (withKo rule h g) = Thrown e g' ->
                MoveRejected g x y c e).
Proof.
  assert (forall e, MoveRejected (withKo rule h g) x y c e <-> MoveRejected g x y c e) as Hrej.
  { intros e. split; inversion 1; subst; econstructor; eauto. }
  split; [|split].
  - split; [by intros Ha; apply makeMove_accepts|].
    by intros (Ha & _)%makeMove_returned.
  - intros e. split.
    + intros [_ Hr%Hrej]%makeMove_thrown. by apply makeMove_rejects.
    + intros [_ Hr%Hrej]%makeMove_thrown. by apply makeMove_rejects.
  - intros e g' [_ Hr%Hrej]%makeMove_thrown. done.
Qed.

Lemma ko_rule_witness :
  makeMove "a11ce" 0 0 black 107 107 (withKo superko [] koSession) =
    Returned true (committed "a11ce" 0 0 black 107 107 (withKo superko [] koSession)).
Proof.
  apply (proj1 (proj1 (ko_rule_is_not_consulted
                         "a11ce" 0 0 black 107 107 koSession superko []))).
  split; [by vm_compute|]. split; [by vm_compute|]. split; [by vm_compute|].
  eexists. split; by vm_compute.
Defined.

(** ** Double pass *)

(** C6, as stated, fails on the scoring result. The two passes complete the
    session, and no score is computed: the document has no result, and the
    [score] of both players is the 0 they were seated with, while Black
    has a stone on the board, which either scoring method counts. *)
Lemma double_pass_computes_no_score :
  status (run started [Move alice 0 0 104; Pass bob 105]) = active /\
  status passedTwice = completed /\
  consecutivePasses (boardState passedTwice) = 2 /\
  map color (players passedTwice) = [black; white] /\
  map score (players passedTwice) = [0; 0] /\
  map score (players started) = [0; 0] /\
  stonesOnBoard black (board (boardState passedTwice)) = 1.
Proof. vm_compute. repeat split. Qed.

(** C6, amended. In an active session whose pass counter is not negative, a
    pass by the player holding the turn is accepted, appends a pass move to
    the history, adds one to the counter and flips the turn. After two
    consecutive passes the status is ['completed']: when the counter was 0
    the second pass is accepted in turn and brings the counter to 2; when
    it was already 1 or more the first pass completes the session and the
    second is rejected. No score is computed: the players and their
    [score], the board, the counters of captured stones and the rules are
    what they were before the passes. Over a whole session, from its
    creation and whatever requests follow, the pass counter is never
    negative and the [score] of every player stays 0. *)
Theorem double_pass_completes_without_score :
  (forall (pid1 pid2 : ObjectId) (c : StoneColor) (t1 t2 : Date) (g : Game),
  status g = active ->
  currentTurn (boardState g) = c ->
  0 <= consecutivePasses (boardState g) ->
  let g1 := passed pid1 c t1 g in
  let g2 := final (passTurn pid2 (opposite c) t2 g1) in
  passTurn pid1 c t1 g = Returned true g1 /\
  moveHistory (boardState g1) =
    moveHistory (boardState g) ++ [mkMove pid1 c (-1) (-1) t1 [] true] /\
  consecutivePasses (boardState g1) = consecutivePasses (boardState g) + 1 /\
  currentTurn (boardState g1) = opposite c /\
  (consecutivePasses (boardState g) = 0 ->
     status g1 = active /\
     passTurn pid2 (opposite c) t2 g1 = Returned true g2 /\
     moveHistory (boardState g2) =
       moveHistory (boardState g) ++ [mkMove pid1 c (-1) (-1) t1 [] true;
                                      mkMove pid2 (opposite c) (-1) (-1) t2 [] true] /\
     consecutivePasses (boardState g2) = 2 /\
     currentTurn (boardState g2) = c) /\
  (1 <= consecutivePasses (boardState g) ->
     status g1 = completed /\
     passTurn pid2 (opposite c) t2 g1 = Thrown (Error "Game is not active") g1) /\
  status g2 = completed /\
  players g2 = players g /\
  board (boardState g2) = board (boardState g) /\
  capturedStones (boardState g2) = capturedStones (boardState g) /\
  moveCount (boardState g2) = moveCount (boardState g) /\
  lastMove (boardState g2) = lastMove (boardState g) /\
  gameSettings g2 = gameSettings g /\ gameRules g2 = gameRules g /\
  metadata g2 = metadata g /\ chat g2 = chat g /\ updatedAt g2 = updatedAt g) /\
  (forall (uuid : string) (body : CreateBody) (creator : AuthPlayer) (now : Date)
          (g0 : Game) (rs : list Request),
     saved (createRoute uuid body creator now) = Some g0 ->
     0 <= consecutivePasses (boardState (run g0 rs)) /\
     Forall (fun p => score p = 0) (players (run g0 rs))).
Proof.
  split.
  2: { intros uuid body creator now g0 rs Hc.
       destruct (Untouched_run g0 rs (Untouched_created _ _ _ _ _ Hc)) as [_ _ _ Hp Hk _].
       split; [done|]. eapply List.Forall_impl; [|exact Hp]. by intros p [_ ?]. }
  intros pid1 pid2 c t1 t2 g Hs Ht Hk g1 g2.
  assert (passTurn pid1 c t1 g = Returned true g1) as H1.
  { destruct (passTurn_cases pid1 c t1 g) as [(e & Hr & _)|(_ & _ & ?)]; [|done].
    inversion Hr; congruence. }
  pose (s1 := mkBoardState (opposite c) (moveCount (boardState g)) (lastMove (boardState g))
                (board (boardState g)) (capturedStones (boardState g))
                (moveHistory (boardState g) ++ [mkMove pid1 c (-1) (-1) t1 [] true])
                (consecutivePasses (boardState g) + 1)).
  destruct (Z.leb_spec 2 (consecutivePasses (boardState g) + 1)) as [Hge|Hlt].
  - (* the counter was 1 or more: the first pass completes the session *)
    assert (g1 = set_status completed (set_boardState s1 g)) as Hg1.
    { unfold g1, passed. by rewrite (proj2 (Z.leb_le _ _) Hge). }
    assert (passTurn pid2 (opposite c) t2 g1 = Thrown (Error "Game is not active") g1) as H2.
    { destruct (passTurn_cases pid2 (opposite c) t2 g1) as [(e & Hr & He)|(Hs2 & _)].
      - inversion Hr as [Hn|Ha Hn]; subst; [done|]. by rewrite Hg1 in Ha.
      - by rewrite Hg1 in Hs2. }
    assert (g2 = g1) as Hg2 by (unfold g2; by rewrite H2).
    clearbody g2. subst g2. clearbody g1. subst g1. subst s1. simpl.
    repeat split; try done; intros; lia.
  - (* the counter was 0: two accepted passes *)
    assert (g1 = set_boardState s1 g) as Hg1.
    { unfold g1, passed. by rewrite (proj2 (Z.leb_gt _ _) Hlt). }
    assert (passTurn pid2 (opposite c) t2 g1 = Returned true (passed pid2 (opposite c) t2 g1))
      as H2.
    { destruct (passTurn_cases pid2 (opposite c) t2 g1) as [(e & Hr & _)|(_ & _ & ?)]; [|done].
      inversion Hr as [Hn|Ha Hn]; subst; rewrite Hg1 in Hn; simpl in Hn; congruence. }
    assert (g2 = set_status completed
              (set_boardState
                 (mkBoardState (opposite (opposite c)) (moveCount (boardState g))
                    (lastMove (boardState g)) (board (boardState g))
                    (capturedStones (boardState g))
                    (moveHistory (boardState g1) ++
                       [mkMove pid2 (opposite c) (-1) (-1) t2 [] true])
                    (consecutivePasses (boardState g) + 1 + 1)) g1)) as Hg2.
    { unfold g2. rewrite H2. simpl. unfold passed. rewrite Hg1. simpl.
      by rewrite (proj2 (Z.leb_le 2 (consecutivePasses (boardState g) + 1 + 1))) by lia. }
    clearbody g2. subst g2. clearbody g1. subst g1. subst s1. simpl.
    repeat split; try done; try (intros; lia).
    + rewrite H2. f_equal. unfold passed. simpl.
      by rewrite (proj2 (Z.leb_le 2 (consecutivePasses (boardState g) + 1 + 1))) by lia.
    + by rewrite <- app_assoc.
    + by destruct c.
Qed.

Lemma double_pass_witness :
  status (final (passTurn "a11ce" black 106
                   (passed "b0b" white 105 (run started [Move alice 0 0 104])))) = completed.
Proof.
  apply (proj1 double_pass_completes_without_score
           "b0b"%string "a11ce"%string white 105 106 (run started [Move alice 0 0 104])).
  - vm_compute. reflexivity.
  - vm_compute. reflexivity.
  - vm_compute. discriminate.
Defined.

(** ** Joining *)

Lemma addPlayer_seat (pd : GamePlayerData) (now : Date) (g : Game) :
  Z.of_nat (length (players g)) < 2 ->
  addPlayer pd now g = Returned tt (set_players (players g ++ [seat pd now g]) g).
Proof.
  intros Hlt. rewrite addPlayer_cases, (proj2 (Z.leb_gt _ _) Hlt).
  unfold seat. by destruct (players g).
Qed.

Lemma seated_false (id : ObjectId) (g : Game) :
  seated id g = false -> id ∉ map playerId (players g).
Proof.
  unfold seated. intros Hs Hin. apply list_elem_of_In, in_map_iff in Hin as (q & Hq & Hin).
  assert (existsb (fun q => String.eqb (playerId q) id) (players g) = true) as Ht.
  { apply existsb_exists. exists q. split; [done|]. by apply String.eqb_eq. }
  congruence.
Qed.

Lemma markReady_color (id : ObjectId) (ps : list GamePlayer) :
  map color (markReady id ps) = map color ps.
Proof.
  induction ps as [|q ps IH]; simpl; [done|].
  destruct (String.eqb (playerId q) id); simpl; by f_equal.
Qed.

Lemma markReady_playerId (id : ObjectId) (ps : list GamePlayer) :
  map playerId (markReady id ps) = map playerId ps.
Proof.
  induction ps as [|q ps IH]; simpl; [done|].
  destruct (String.eqb (playerId q) id); simpl; by f_equal.
Qed.

Lemma Seats_created (uuid : string) (body : CreateBody) (creator : AuthPlayer)
    (now : Date) (g0 : Game) :
  saved (createRoute uuid body creator now) = Some g0 -> Seats g0.
Proof.
  unfold createRoute. rewrite addPlayer_cases; simpl.
  destruct (validBoardSize (cb_boardSize body)); [|done].
  intros [= <-]. split; simpl; [by left|]. split; [apply NoDup_singleton | done].
Qed.

Lemma Seats_persist (g : Game) (r : Request) :
  Untouched g -> Seats g -> Seats (persist g r).
Proof.
  intros Hu (Hcol & Hnd & Hfull). unfold persist.
  destruct r as [p now|p now|p x y now|p now]; simpl.
  - unfold joinRoute.
    case_status g waiting; [|done].
    destruct (Z.leb_spec 2 (Z.of_nat (length (players g)))) as [|Hlt]; [done|].
    destruct (existsb _ (players g)) eqn:Hseated; [done|].
    rewrite addPlayer_seat by done.
    apply seated_false in Hseated.
    destruct Hcol as [Hcol|Hcol].
    2: { apply (f_equal length) in Hcol. rewrite length_map in Hcol. simpl in Hcol. lia. }
    unfold Seats. simpl. rewrite !map_app, Hcol. simpl. split; [|split; [|done]].
    + right. by destruct (players g).
    + apply NoDup_app. split; [done|]. split; [|apply NoDup_singleton].
      by intros id Hid [->|[]%elem_of_nil]%elem_of_cons.
  - unfold readyRoute. destruct (findPlayer p g); [|done].
    set (g1 := save now (set_players (markReady (_id p) (players g)) g)).
    assert (length (markReady (_id p) (players g)) = length (players g)) as Hlen.
    { by rewrite <- (length_map playerId), markReady_playerId, length_map. }
    assert (Seats g1) as Hs1.
    { split; [|split]; simpl; by rewrite ?markReady_color, ?markReady_playerId, ?Hlen. }
    assert (validBoardSize (boardSize (gameSettings g1)) = true) as Hv by by destruct Hu.
    destruct ((Z.of_nat (length (markReady (_id p) (players g))) =? 2) &&
              forallb isReady (markReady (_id p) (players g))) eqn:Hready; [|exact Hs1].
    rewrite (startGame_valid _ _ Hv).
    change (players g1) with (markReady (_id p) (players g)).
    apply andb_true_iff in Hready as [Hl Hr]. rewrite Hl, Hr. simpl.
    destruct Hs1 as (? & ? & _). split; [done|]. split; [done|].
    simpl. intros _. apply Z.eqb_eq in Hl. lia.
  - unfold moveRoute.
    destruct (negb (bool_decide (status g = active))); [done|].
    destruct (findPlayer p g) as [q|]; [|done].
    by destruct (makeMove_cases (_id p) x y (color q) now now g) as [(e & _ & ->)|[_ ->]].
  - unfold passRoute.
    case_status g active; [|done].
    destruct (findPlayer p g) as [q|]; [|done].
    destruct (passTurn_cases (_id p) (color q) now g) as [(e & _ & ->)|(_ & _ & ->)];
      [done|]. simpl. unfold passed.
    assert (length (players g) = 2%nat) as Hlen by (apply Hfull; congruence).
    by destruct (2 <=? consecutivePasses (boardState g) + 1).
Qed.

Lemma Seats_run (g : Game) (rs : list Request) :
  Untouched g -> Seats g -> Seats (run g rs).
Proof.
  revert g. induction rs as [|r rs IH]; intros g Hu Hs; [done|].
  simpl. apply IH; [by apply Untouched_persist | by apply Seats_persist].
Qed.

(** C8. A player is added only while the session is in ['waiting']: the
    join route answers "Game is not accepting players" in any other status,
    "Game is full" when two seats are taken, "You are already in this game"
    when the identifier already holds a seat, in this order, and saves
    nothing in these cases; [addPlayer] itself throws "Game is full" on two
    seats, which is the case of every session that has left ['waiting'].
    When a player is added, the seat is black if no seat was taken and
    white otherwise, whatever the player and the instant. Over a whole
    session the seats are black alone or black then white, and no
    identifier holds two seats. *)
Theorem join_seats_black_then_white :
  (forall (pd : GamePlayerData) (now : Date) (g : Game),
     (2 <= Z.of_nat (length (players g)) ->
      addPlayer pd now g = Thrown (Error "Game is full") g) /\
     (Z.of_nat (length (players g)) < 2 ->
      addPlayer pd now g = Returned tt (set_players (players g ++ [seat pd now g]) g))) /\
  (forall (pd : GamePlayerData) (now : Date) (g : Game),
     playerId (seat pd now g) = pd_playerId pd /\
     (players g = [] -> color (seat pd now g) = black) /\
     (players g <> [] -> color (seat pd now g) = white)) /\
  (forall (player : AuthPlayer) (now : Date) (g : Game),
     (status g <> waiting ->
      joinRoute player now (Some g) = reject 400 "Game is not accepting players") /\
     (status g = waiting -> 2 <= Z.of_nat (length (players g)) ->
      joinRoute player now (Some g) = reject 400 "Game is full") /\
     (status g = waiting -> Z.of_nat (length (players g)) < 2 ->
      seated (_id player) g = true ->
      joinRoute player now (Some g) = reject 400 "You are already in this game") /\
     (status g = waiting -> Z.of_nat (length (players g)) < 2 ->
      seated (_id player) g = false ->
      joinRoute player now (Some g) =
        mkHandled (JsonOk 200 "Joined game successfully")
          (Some (save now (set_players
                   (players g ++ [seat (playerDataOf player) now g]) g))))) /\
  (forall (uuid : string) (body : CreateBody) (creator : AuthPlayer) (now : Date)
          (g0 : Game) (rs : list Request),
     saved (createRoute uuid body creator now) = Some g0 ->
     (map color (players (run g0 rs)) = [black] \/
      map color (players (run g0 rs)) = [black; white]) /\
     NoDup (map playerId (players (run g0 rs))) /\
     (status (run g0 rs) <> waiting ->
      forall pd t, addPlayer pd t (run g0 rs) = Thrown (Error "Game is full") (run g0 rs))).
Proof.
  split; [|split; [|split]].
  - intros pd now g. split.
    + intros Hfull. by rewrite addPlayer_cases, (proj2 (Z.leb_le _ _) Hfull).
    + apply addPlayer_seat.
  - intros pd now g. unfold seat. simpl. split; [done|].
    split; [by intros -> | by destruct (players g)].
  - intros player now g. unfold joinRoute, seated. repeat split.
    + intros Hs. by rewrite (bool_decide_eq_false_2 _ Hs).
    + intros Hs Hfull.
      by rewrite (bool_decide_eq_true_2 _ Hs), (proj2 (Z.leb_le _ _) Hfull).
    + intros Hs Hlt Hseated.
      by rewrite (bool_decide_eq_true_2 _ Hs), (proj2 (Z.leb_gt _ _) Hlt), Hseated.
    + intros Hs Hlt Hseated.
      rewrite (bool_decide_eq_true_2 _ Hs), (proj2 (Z.leb_gt _ _) Hlt), Hseated. simpl.
      by rewrite addPlayer_seat.
  - intros uuid body creator now g0 rs Hc.
    destruct (Seats_run g0 rs) as (Hcol & Hnd & Hfull);
      [by eapply Untouched_created | by eapply Seats_created |].
    split; [done|]. split; [done|].
    intros Hs pd t. rewrite addPlayer_cases, (Hfull Hs). done.
Qed.

(** Bob joins the game that Alice created and is seated as white. *)
Lemma join_witness :
  joinRoute bob 101 (Some created) =
    mkHandled (JsonOk 200 "Joined game successfully")
      (Some (save 101 (set_players
               (players created ++ [seat (playerDataOf bob) 101 created]) created))) /\
  color (seat (playerDataOf bob) 101 created) = white.
Proof.
  split.
  - apply (proj2 (proj2 (proj2 (proj1 (proj2 (proj2 join_seats_black_then_white))
                                  bob 101 created)))).
    + vm_compute. reflexivity.
    + vm_compute. reflexivity.
    + vm_compute. reflexivity.
  - apply (proj2 (proj2 (proj1 (proj2 join_seats_black_then_white)
                           (playerDataOf bob) 101 created))).
    vm_compute. discriminate.
Defined.

(** * Further properties *)

(** ** [initializeBoard] on a board of any side *)

Lemma boardOf_lookup (n : nat) (L : Z -> Z -> Z) (x y : Z) :
  0 <= x < Z.of_nat n -> 0 <= y < Z.of_nat n ->
  cellAt (boardOf n L) x y = Some (mkCell None (L x y) None).
Proof.
  intros Hx Hy. apply cellAt_Some. split; [lia|]. split; [lia|].
  eexists. unfold boardOf. split.
  - rewrite list_lookup_fmap, lookup_seq_lt by lia. reflexivity.
  - rewrite list_lookup_fmap, lookup_seq_lt by lia. simpl.
    by rewrite !Z2Nat.id by lia.
Qed.

Lemma boardOf_outside (n : nat) (L : Z -> Z -> Z) (x y : Z) :
  ~ (0 <= x < Z.of_nat n /\ 0 <= y < Z.of_nat n) -> cellAt (boardOf n L) x y = None.
Proof.
  intros Hout. destruct (cellAt (boardOf n L) x y) as [cell|] eqn:Hc; [|done].
  apply cellAt_Some in Hc as (Hx & Hy & row & Hr & Hc). unfold boardOf in Hr.
  rewrite list_lookup_fmap in Hr.
  destruct (seq 0 n !! Z.to_nat y) as [j|] eqn:Hj; [|done].
  apply lookup_seq in Hj as [-> Hlt]. injection Hr as <-.
  rewrite list_lookup_fmap in Hc.
  destruct (seq 0 n !! Z.to_nat x) as [i|] eqn:Hi; [|done].
  apply lookup_seq in Hi as [-> Hlt']. destruct Hout. lia.
Qed.

Lemma boardOf_ext (n : nat) (L L' : Z -> Z -> Z) :
  (forall x y, 0 <= x < Z.of_nat n -> 0 <= y < Z.of_nat n -> L x y = L' x y) ->
  boardOf n L = boardOf n L'.
Proof.
  intros Heq. unfold boardOf. apply list_fmap_ext. intros j y Hy.
  apply lookup_seq in Hy as [-> Hy]. apply list_fmap_ext. intros i x Hx.
  apply lookup_seq in Hx as [-> Hx]. f_equal. apply Heq; lia.
Qed.

Lemma replicate_boardOf (n : nat) :
  replicate n (replicate n emptyCell) = boardOf n (fun _ _ => 4).
Proof.
  assert (forall (A : Type) (a : A), replicate n a = (fun _ => a) <$> seq 0 n) as Hrep.
  { intros A a. apply list_eq. intros i. rewrite list_lookup_fmap.
    destruct (decide (i < n)%nat).
    - by rewrite lookup_replicate_2, lookup_seq_lt.
    - rewrite lookup_seq_ge by lia. apply lookup_replicate_None. lia. }
  unfold boardOf. by rewrite !Hrep.
Qed.

Lemma updateCell_boardOf (n : nat) (L : Z -> Z -> Z) (x y v : Z) :
  0 <= x < Z.of_nat n -> 0 <= y < Z.of_nat n ->
  updateCell (set_liberties v) x y (boardOf n L) = boardOf n (written L x y v).
Proof.
  intros Hx Hy. unfold updateCell, boardOf, written. apply list_eq. intros j.
  destruct (decide (j = Z.to_nat y)) as [->|Hj].
  - rewrite list_lookup_alter_eq, !list_lookup_fmap, lookup_seq_lt by lia. simpl.
    f_equal. apply list_eq. intros i.
    destruct (decide (i = Z.to_nat x)) as [->|Hi].
    + rewrite list_lookup_alter_eq, !list_lookup_fmap, lookup_seq_lt by lia. simpl.
      rewrite !Z2Nat.id, !Z.eqb_refl by lia. reflexivity.
    + rewrite list_lookup_alter_ne, !list_lookup_fmap by done.
      destruct (seq 0 n !! i) as [i'|] eqn:Hi'; [|done]. simpl.
      apply lookup_seq in Hi' as [-> _].
      rewrite (proj2 (Z.eqb_neq (Z.of_nat (0 + i)) x)) by lia. reflexivity.
  - rewrite list_lookup_alter_ne, !list_lookup_fmap by done.
    destruct (seq 0 n !! j) as [j'|] eqn:Hj'; [|done]. simpl. f_equal.
    apply lookup_seq in Hj' as [-> _]. apply list_fmap_ext. intros i i' _. f_equal.
    rewrite (proj2 (Z.eqb_neq (Z.of_nat (0 + j)) y)) by lia.
    by rewrite andb_false_r.
Qed.

Lemma assignLiberties_boardOf (n : nat) (L : Z -> Z -> Z) (x y v : Z) (g : Game) :
  0 <= x < Z.of_nat n -> 0 <= y < Z.of_nat n ->
  assignLiberties x y v (withBoard (boardOf n L) g) =
    Returned tt (withBoard (boardOf n (written L x y v)) g).
Proof.
  intros Hx Hy. unfold assignLiberties, mbind, M_bind, bind, this. simpl.
  rewrite boardOf_lookup by done. unfold assignBoardState, assign. simpl.
  by rewrite updateCell_boardOf.
Qed.

Lemma edge_loop_boardOf (n : nat) (k : nat) :
  forall (i : Z) (L : Z -> Z -> Z) (g : Game),
    0 <= i -> i + Z.of_nat k <= Z.of_nat n ->
    forLoop k i (fun i =>
      assignLiberties i 0 3;;
      assignLiberties i (Z.of_nat n - 1) 3;;
      assignLiberties 0 i 3;;
      assignLiberties (Z.of_nat n - 1) i 3) (withBoard (boardOf n L) g) =
    Returned tt (withBoard (boardOf n (edged (Z.of_nat n) k i L)) g).
Proof.
  induction k as [|k IH]; intros i L g Hi Hk; [done|].
  cbn [forLoop edged]. unfold mbind, M_bind, bind in *.
  rewrite !assignLiberties_boardOf by lia.
  apply IH; lia.
Qed.

(** A test on integers, as a proposition. *)
Ltac test_to_prop E :=
  repeat first
    [ rewrite orb_true_iff in E | rewrite andb_true_iff in E
    | rewrite Z.leb_le in E | rewrite Z.ltb_lt in E | rewrite Z.eqb_eq in E ].

Lemma edged_value (n : Z) (k : nat) :
  forall (i : Z) (L : Z -> Z -> Z) (x y : Z),
    edged n k i L x y =
      if ((i <=? x) && (x <? i + Z.of_nat k) && ((y =? 0) || (y =? n - 1))) ||
         ((i <=? y) && (y <? i + Z.of_nat k) && ((x =? 0) || (x =? n - 1)))
      then 3 else L x y.
Proof.
  induction k as [|k IH]; intros i L x y.
  - simpl. destruct (_ || _) eqn:E; [|done]. test_to_prop E. lia.
  - cbn [edged]. rewrite IH. unfold written.
    match goal with
    | |- (if ?b1 then _ else _) = (if ?b2 then _ else _) =>
        destruct b1 eqn:E1; destruct b2 eqn:E2
    end;
      repeat match goal with
      | E : _ = true |- _ => progress test_to_prop E
      | E : _ = false |- _ => apply not_true_iff_false in E; test_to_prop E
      end;
      repeat match goal with
      | |- context [(?a =? ?b)] => destruct (Z.eqb_spec a b)
      end; simpl; first [reflexivity | lia].
Qed.

Lemma initializeBoard_positive (g : Game) :
  1 <= boardSize (gameSettings g) < 4294967296 ->
  initializeBoard g = Returned tt (withBoard (initialBoard (boardSize (gameSettings g))) g).
Proof.
  intros Hn. set (N := Z.to_nat (boardSize (gameSettings g))).
  assert (boardSize (gameSettings g) = Z.of_nat N) as HN by lia.
  assert (0 < Z.of_nat N) as HN0 by lia.
  assert (Z.of_nat N < 4294967296) as HN1 by lia.
  unfold initializeBoard. unfold mbind at 1, M_bind at 1, bind at 1, this.
  fold N. rewrite HN. clearbody N. clear HN Hn.
  unfold mbind at 1, M_bind at 1, bind at 1.
  rewrite (proj2 (Z.ltb_ge (Z.of_nat N) 0)), (proj2 (Z.leb_gt 4294967296 (Z.of_nat N)))
    by lia.
  cbn [throwIf ret orb].
  unfold mbind at 1, M_bind at 1, bind at 1.
  change (assignBoardState (set_board (replicate N (replicate N emptyCell))) g)
    with (Returned tt (withBoard (replicate N (replicate N emptyCell)) g)).
  cbv beta iota. rewrite replicate_boardOf.
  unfold mbind at 1, M_bind at 1, bind at 1.
  rewrite edge_loop_boardOf by lia.
  unfold mbind, M_bind, bind.
  rewrite !assignLiberties_boardOf by lia.
  do 2 f_equal. unfold initialBoard. rewrite Nat2Z.id.
  apply boardOf_ext. intros x y Hx Hy.
  unfold written. rewrite edged_value. unfold initialLiberties.
  match goal with
  | |- context [if ?b then 3 else 4] => destruct b eqn:E
  end;
    [test_to_prop E | apply not_true_iff_false in E; test_to_prop E];
    repeat match goal with
    | |- context [(?a =? ?b)] => destruct (Z.eqb_spec a b)
    end; simpl; first [reflexivity | lia].
Qed.

Lemma initialBoard_lookup (n x y : Z) :
  0 <= x < n -> 0 <= y < n ->
  cellAt (initialBoard n) x y = Some (mkCell None (initialLiberties n x y) None).
Proof. intros Hx Hy. apply (boardOf_lookup (Z.to_nat n)); lia. Qed.

Lemma initialBoard_outside (n x y : Z) :
  ~ (0 <= x < n /\ 0 <= y < n) -> cellAt (initialBoard n) x y = None.
Proof. intros Hout. apply (boardOf_outside (Z.to_nat n)). lia. Qed.

Lemma initialBoard_no_stone (n : Z) (p : Coord) : stoneAt (initialBoard n) p = None.
Proof.
  unfold stoneAt. destruct p as [x y]; simpl.
  destruct (decide (0 <= x < n /\ 0 <= y < n)) as [[Hx Hy]|Hout].
  - by rewrite initialBoard_lookup.
  - by rewrite initialBoard_outside.
Qed.

Lemma initializeBoard_no_array (g : Game) :
  boardSize (gameSettings g) < 0 \/ 4294967296 <= boardSize (gameSettings g) ->
  initializeBoard g = Thrown RangeError g.
Proof.
  intros Hn. unfold initializeBoard, mbind, M_bind, bind, this.
  destruct Hn as [Hn|Hn].
  - by rewrite (proj2 (Z.ltb_lt _ _) Hn).
  - rewrite (proj2 (Z.leb_le _ _) Hn). by rewrite orb_true_r.
Qed.

(** X1. On a document whose [boardSize] is the integer [n],
    [initializeBoard] returns for every [n] from 1 to 2^32 - 1, whether or
    not the schema admits [n], and leaves the board of side [n] that has no
    stone and whose cells hold 2 liberties in the corners, 3 on the edges
    and 4 inside (a board of side 1 is one corner); nothing but the board
    changes. For [n = 0] it throws [TypeError] at the first corner, after it
    has replaced the board by the empty array. For [n < 0] and for
    [n >= 2^32], which is no array length, it throws [RangeError] and leaves
    the document as it was. *)
Theorem initializeBoard_any_size (g : Game) :
  (1 <= boardSize (gameSettings g) < 4294967296 ->
   initializeBoard g =
     Returned tt (withBoard (initialBoard (boardSize (gameSettings g))) g) /\
   forall x y,
     cellAt (initialBoard (boardSize (gameSettings g))) x y =
       if decide (0 <= x < boardSize (gameSettings g) /\ 0 <= y < boardSize (gameSettings g))
       then Some (mkCell None (initialLiberties (boardSize (gameSettings g)) x y) None)
       else None) /\
  (boardSize (gameSettings g) = 0 ->
   initializeBoard g = Thrown TypeError (withBoard [] g)) /\
  (boardSize (gameSettings g) < 0 \/ 4294967296 <= boardSize (gameSettings g) ->
   initializeBoard g = Thrown RangeError g).
Proof.
  split; [|split].
  - intros Hn. split; [by apply initializeBoard_positive|].
    intros x y. destruct (decide _) as [[Hx Hy]|Hout].
    + apply initialBoard_lookup; lia.
    + by apply initialBoard_outside.
  - intros Hn. unfold initializeBoard, mbind, M_bind, bind, this. rewrite Hn. reflexivity.
  - intros Hn. by apply initializeBoard_no_array.
Qed.

(** The document that Alice created has a board size of 9; with a size
    of 2^32 no board is built. *)
Lemma initializeBoard_witness :
  initializeBoard created = Returned tt (withBoard (initialBoard 9) created) /\
  initializeBoard (withBoardSize 4294967296 created) =
    Thrown RangeError (withBoardSize 4294967296 created).
Proof.
  split.
  - apply (proj1 (proj1 (initializeBoard_any_size created)
                    ltac:(split; vm_compute; first [discriminate | reflexivity]))).
  - apply (proj2 (proj2 (initializeBoard_any_size (withBoardSize 4294967296 created)))).
    right. vm_compute. discriminate.
Defined.

(** ** Starting a game, and starting it again *)

Lemma startGame_positive (now : Date) (g : Game) :
  1 <= boardSize (gameSettings g) < 4294967296 ->
  startGame now g =
    if negb (Z.of_nat (length (players g)) =? 2)
    then Thrown (Error "Need exactly 2 players to start") g
    else if negb (forallb isReady (players g))
    then Thrown (Error "All players must be ready") g
    else Returned tt
           (withBoard (initialBoard (boardSize (gameSettings g)))
              (set_metadata (set_startedAt (Some now) (metadata g)) (set_status active g))).
Proof.
  intros Hn. unfold startGame, mbind, M_bind, bind, this; simpl.
  destruct (negb (Z.of_nat (length (players g)) =? 2)); [done|]; simpl.
  destruct (negb (forallb isReady (players g))); [done|]; simpl.
  unfold assign. by rewrite initializeBoard_positive.
Qed.

(** X2. [startGame] throws "Need exactly 2 players to start" unless two
    players are seated, then "All players must be ready" unless both are
    ready, and leaves the document unchanged in both cases. Otherwise it
    sets the status to ['active'], records the start time and calls
    [initializeBoard]. For a board size from 1 to 2^32 - 1 it returns, with
    the board replaced by the initial one, and this is all it does: the
    turn, the move count, the last move, the move history, the pass counter
    and the counters of captured stones are not reset. For the other sizes
    it throws where [initializeBoard] does, [TypeError] for 0 and
    [RangeError] below 0 and from 2^32 on, with the status and the start
    time already written. *)
Theorem startGame_resets_the_board_only (now : Date) (g : Game) :
  (length (players g) <> 2%nat ->
   startGame now g = Thrown (Error "Need exactly 2 players to start") g) /\
  (length (players g) = 2%nat -> forallb isReady (players g) = false ->
   startGame now g = Thrown (Error "All players must be ready") g) /\
  (length (players g) = 2%nat -> forallb isReady (players g) = true ->
   (1 <= boardSize (gameSettings g) < 4294967296 ->
    exists g',
      startGame now g = Returned tt g' /\
      status g' = active /\
      startedAt (metadata g') = Some now /\
      board (boardState g') = initialBoard (boardSize (gameSettings g)) /\
      currentTurn (boardState g') = currentTurn (boardState g) /\
      moveCount (boardState g') = moveCount (boardState g) /\
      lastMove (boardState g') = lastMove (boardState g) /\
      moveHistory (boardState g') = moveHistory (boardState g) /\
      consecutivePasses (boardState g') = consecutivePasses (boardState g) /\
      capturedStones (boardState g') = capturedStones (boardState g) /\
      players g' = players g /\ chat g' = chat g /\
      gameSettings g' = gameSettings g /\ gameRules g' = gameRules g /\
      createdAt (metadata g') = createdAt (metadata g) /\
      lastActivity (metadata g') = lastActivity (metadata g) /\
      updatedAt g' = updatedAt g) /\
   (boardSize (gameSettings g) = 0 ->
    startGame now g =
      Thrown TypeError
        (withBoard [] (set_metadata (set_startedAt (Some now) (metadata g))
                         (set_status active g)))) /\
   (boardSize (gameSettings g) < 0 \/ 4294967296 <= boardSize (gameSettings g) ->
    startGame now g =
      Thrown RangeError
        (set_metadata (set_startedAt (Some now) (metadata g)) (set_status active g)))).
Proof.
  split; [|split].
  - intros Hl. unfold startGame, mbind, M_bind, bind, this; simpl.
    rewrite (proj2 (Z.eqb_neq _ _)) by lia. done.
  - intros Hl Hr. unfold startGame, mbind, M_bind, bind, this; simpl.
    rewrite Hl, Hr. done.
  - intros Hl Hr. split; [|split].
    + intros Hn. rewrite (startGame_positive now g Hn), Hl, Hr. simpl.
      eexists. split; [reflexivity|]. simpl. repeat split.
    + intros Hn. unfold startGame. unfold mbind at 1 2 3 4, M_bind at 1 2 3 4,
        bind at 1 2 3 4, this; simpl. rewrite Hl, Hr. simpl. unfold assign.
      unfold initializeBoard, mbind, M_bind, bind, this. simpl. rewrite Hn. reflexivity.
    + intros Hn. unfold startGame. unfold mbind at 1 2 3 4, M_bind at 1 2 3 4,
        bind at 1 2 3 4, this; simpl. rewrite Hl, Hr. simpl. unfold assign.
      unfold mbind, M_bind, bind. by rewrite initializeBoard_no_array.
Qed.

(** The session in which White is being surrounded is started again: its
    six moves stay in the history. *)
Lemma startGame_witness :
  exists g', startGame 200 surrounding = Returned tt g' /\
             board (boardState g') = initialBoard 9 /\
             moveCount (boardState g') = 6.
Proof.
  destruct (proj1 (proj2 (proj2 (startGame_resets_the_board_only 200 surrounding))
                     ltac:(vm_compute; reflexivity) ltac:(vm_compute; reflexivity))
              ltac:(split; vm_compute; first [discriminate | reflexivity]))
    as (g' & Hs & _ & _ & Hb & _ & Hm & _).
  exists g'. split; [exact Hs|]. split; [exact Hb|]. rewrite Hm. vm_compute. reflexivity.
Defined.

Lemma markReady_length (id : ObjectId) (ps : list GamePlayer) :
  length (markReady id ps) = length ps.
Proof. by rewrite <- (length_map playerId), markReady_playerId, length_map. Qed.

(** X3. The ready route does not look at the status. When the caller is
    seated, two players are seated and all are ready once the caller is
    marked (board size from 1 to 2^32 - 1, which includes the sizes of the
    schema), the route starts the game, whatever the
    status was: in a game already under way, or completed, the saved
    document is ['active'], has no stone on its board, and has kept the
    turn, the move count, the move history and the pass counter. *)
Theorem ready_route_starts_again (player : AuthPlayer) (now : Date) (g : Game) :
  1 <= boardSize (gameSettings g) < 4294967296 ->
  findPlayer player g <> None ->
  length (players g) = 2%nat ->
  forallb isReady (markReady (_id player) (players g)) = true ->
  exists g',
    readyRoute player now (Some g) =
      mkHandled (JsonOk 200 "Player ready status updated") (Some g') /\
    status g' = active /\
    board (boardState g') = initialBoard (boardSize (gameSettings g)) /\
    (forall p, stoneAt (board (boardState g')) p = None) /\
    players g' = markReady (_id player) (players g) /\
    currentTurn (boardState g') = currentTurn (boardState g) /\
    moveCount (boardState g') = moveCount (boardState g) /\
    moveHistory (boardState g') = moveHistory (boardState g) /\
    consecutivePasses (boardState g') = consecutivePasses (boardState g).
Proof.
  intros Hn Hp Hl Hr. unfold readyRoute.
  destruct (findPlayer player g) as [q|]; [clear Hp|done].
  cbv zeta. rewrite startGame_positive by done. simpl.
  rewrite markReady_length, Hl, Hr. simpl.
  eexists. split; [reflexivity|]. simpl. repeat split.
  intros p. apply initialBoard_no_stone.
Qed.

(** Alice posts [ready] while White is being surrounded: the stones are
    gone, the six moves are still counted. *)
Lemma ready_route_witness :
  exists g',
    saved (readyRoute alice 200 (Some surrounding)) = Some g' /\
    stoneAt (board (boardState surrounding)) (1, 1) = Some white /\
    stoneAt (board (boardState g')) (1, 1) = None /\
    moveCount (boardState g') = 6.
Proof.
  destruct (ready_route_starts_again alice 200 surrounding)
    as (g' & Hr & _ & _ & Hs & _ & _ & Hm & _).
  - split; vm_compute; first [discriminate | reflexivity].
  - vm_compute. discriminate.
  - vm_compute. reflexivity.
  - vm_compute. reflexivity.
  - exists g'. rewrite Hr. split; [reflexivity|]. split; [vm_compute; reflexivity|].
    split; [apply Hs|]. rewrite Hm. vm_compute. reflexivity.
Defined.

(** ** One event at a time *)

Lemma persistEvent_Play (g : Game) (r : Request) : persistEvent g (Play r) = persist g r.
Proof. reflexivity. Qed.

Lemma findPlayer_Some (p : AuthPlayer) (g : Game) (q : GamePlayer) :
  findPlayer p g = Some q -> q ∈ players g /\ playerId q = _id p.
Proof.
  unfold findPlayer. intros H. apply find_some in H as [Hin Heq].
  split; [by apply list_elem_of_In | by apply String.eqb_eq].
Qed.

Lemma markReady_ready (id : ObjectId) (ps : list GamePlayer) :
  forallb isReady ps = true -> forallb isReady (markReady id ps) = true.
Proof.
  induction ps as [|q ps IH]; simpl; [done|].
  intros [Hq Hps]%andb_true_iff.
  destruct (String.eqb (playerId q) id); simpl; [by rewrite Hps|].
  by rewrite Hq, IH.
Qed.

Lemma persistEvent_step (g : Game) (e : Event) :
  1 <= boardSize (gameSettings g) < 4294967296 -> Step g (persistEvent g e).
Proof.
  intros Hn. unfold persistEvent.
  destruct e as [[p now|p now|p x y now|p now]|p message now|p now]; simpl.
  - unfold joinRoute. case_status g waiting; [|constructor].
    destruct (Z.leb_spec 2 (Z.of_nat (length (players g)))) as [|Hlt]; [constructor|].
    destruct (existsb _ (players g)) eqn:Hseated; [constructor|].
    rewrite addPlayer_seat by done. simpl. apply step_join; [done | lia | done].
  - unfold readyRoute. destruct (findPlayer p g) as [q|] eqn:Hq; [|constructor].
    cbv zeta. rewrite startGame_positive by done. simpl. rewrite markReady_length.
    destruct (Z.eqb_spec (Z.of_nat (length (players g))) 2) as [Hl|Hl]; simpl.
    + destruct (forallb isReady (markReady (_id p) (players g))) eqn:Hr; simpl.
      * apply (step_start g p now q); [done | lia | done].
      * apply (step_ready g p now q); [done|]. rewrite Hr. apply andb_false_r.
    + apply (step_ready g p now q); [done|].
      rewrite (proj2 (Nat.eqb_neq _ _)) by lia. done.
  - unfold moveRoute. case_status g active; [|constructor].
    destruct (findPlayer p g) as [q|] eqn:Hq; [|constructor].
    destruct (makeMove_cases (_id p) x y (color q) now now g) as [(e & _ & ->)|[Ha ->]];
      [constructor|]. simpl. by eapply step_move.
  - unfold passRoute. case_status g active; [|constructor].
    destruct (findPlayer p g) as [q|] eqn:Hq; [|constructor].
    destruct (passTurn_cases (_id p) (color q) now g) as [(e & _ & ->)|(_ & Ht & ->)];
      [constructor|]. simpl. by eapply step_pass.
  - unfold chatRoute. destruct (findPlayer p g) as [q|] eqn:Hq; [|constructor].
    simpl. by eapply step_chat.
  - unfold resignRoute. case_status g active; [|constructor].
    destruct (findPlayer p g) as [q|] eqn:Hq; [|constructor].
    simpl. by eapply step_resign.
Qed.

Lemma Untouched_persistEvent (g : Game) (e : Event) :
  Untouched g -> Untouched (persistEvent g e).
Proof.
  intros Hu. destruct e as [r|p message now|p now].
  - by apply Untouched_persist.
  - unfold persistEvent; simpl. unfold chatRoute.
    destruct (findPlayer p g); [|done]. simpl. by destruct Hu.
  - unfold persistEvent; simpl. unfold resignRoute. case_status g active; [|done].
    destruct (findPlayer p g); [|done]. simpl.
    destruct Hu as [? ? ? ? ? Hf]. split; simpl; auto.
    destruct Hf as [[Hw _]|Hf]; [congruence | by right].
Qed.

Lemma Untouched_play (g : Game) (es : list Event) : Untouched g -> Untouched (play g es).
Proof.
  revert g. induction es as [|e es IH]; intros g Hu; [done|].
  simpl. apply IH. by apply Untouched_persistEvent.
Qed.

Lemma Untouched_positive (g : Game) :
  Untouched g -> 1 <= boardSize (gameSettings g) < 4294967296.
Proof. intros [Hv%validBoardSize_cases _ _ _ _ _]. lia. Qed.

Lemma Seats_persistEvent (g : Game) (e : Event) :
  Untouched g -> Seats g -> Seats (persistEvent g e).
Proof.
  intros Hu Hs. destruct e as [r|p message now|p now].
  - by apply Seats_persist.
  - unfold persistEvent; simpl. unfold chatRoute. by destruct (findPlayer p g).
  - unfold persistEvent; simpl. unfold resignRoute. case_status g active; [|done].
    destruct (findPlayer p g); [|done]. simpl.
    destruct Hs as (? & ? & Hfull). split; [done|]. split; [done|].
    simpl. intros _. apply Hfull. congruence.
Qed.

Lemma Seats_play (g : Game) (es : list Event) :
  Untouched g -> Seats g -> Seats (play g es).
Proof.
  revert g. induction es as [|e es IH]; intros g Hu Hs; [done|].
  simpl. apply IH; [by apply Untouched_persistEvent | by apply Seats_persistEvent].
Qed.

(** ** The bookkeeping follows the history *)

Lemma parity_succ (n : nat) :
  (if Nat.even (S n) then black else white) = opposite (if Nat.even n then black else white).
Proof. rewrite Nat.even_succ, <- Nat.negb_even. by destruct (Nat.even n). Qed.

Lemma alternating_succ (n : nat) :
  alternating (S n) = alternating n ++ [if Nat.even n then black else white].
Proof. unfold alternating. by rewrite seq_S, fmap_app. Qed.

Lemma placements_snoc (h : list GameMoveHistory) (m : GameMoveHistory) :
  placements (h ++ [m]) = if mv_pass m then placements h else placements h ++ [m].
Proof.
  unfold placements. rewrite filter_app. destruct (mv_pass m) eqn:E.
  - rewrite filter_cons_False by congruence. apply app_nil_r.
  - by rewrite filter_cons_True.
Qed.

Lemma trailingPasses_snoc (h : list GameMoveHistory) (m : GameMoveHistory) :
  trailingPasses (h ++ [m]) = if mv_pass m then 1 + trailingPasses h else 0.
Proof. unfold trailingPasses. by rewrite rev_unit. Qed.

Lemma lastPlacement_snoc (h : list GameMoveHistory) (m : GameMoveHistory) :
  lastPlacement (h ++ [m]) =
    if mv_pass m then lastPlacement h else Some (mv_x m, mv_y m, mv_color m).
Proof. unfold lastPlacement. rewrite rev_unit. simpl. by destruct (mv_pass m). Qed.

Lemma seatsOf_markReady (id : ObjectId) (now : Date) (g : Game) :
  seatsOf (save now (set_players (markReady id (players g)) g)) = seatsOf g.
Proof.
  unfold seatsOf; simpl. induction (players g) as [|q ps IH]; simpl; [done|].
  destruct (String.eqb (playerId q) id); simpl; by f_equal.
Qed.

Lemma Ledger_appended (g g' : Game) (m : GameMoveHistory) :
  Ledger g ->
  moveHistory (boardState g') = moveHistory (boardState g) ++ [m] ->
  mv_color m = currentTurn (boardState g) ->
  currentTurn (boardState g') = opposite (currentTurn (boardState g)) ->
  moveCount (boardState g') =
    (if mv_pass m then moveCount (boardState g) else moveCount (boardState g) + 1) ->
  consecutivePasses (boardState g') =
    (if mv_pass m then consecutivePasses (boardState g) + 1 else 0) ->
  lastPlaced (boardState g') =
    (if mv_pass m then lastPlaced (boardState g)
     else Some (mv_x m, mv_y m, mv_color m)) ->
  (forall p c, stoneAt (board (boardState g')) p = Some c ->
     stoneAt (board (boardState g)) p = Some c \/
     (mv_pass m = false /\ (mv_x m, mv_y m) = p /\ mv_color m = c)) ->
  seatsOf g' = seatsOf g ->
  (mv_playerId m, mv_color m) ∈ seatsOf g ->
  Ledger g'.
Proof.
  intros [Hcol Hturn Hcount Hpass Hlast Hst Hmov] Hh Hc Ht Hm Hk Hl Hs Hseats Hin.
  split.
  - rewrite Hh, map_app, length_app, Hcol. simpl.
    rewrite Nat.add_1_r, alternating_succ. by rewrite Hc, Hturn.
  - rewrite Ht, Hh, length_app. simpl. rewrite Nat.add_1_r, parity_succ. by rewrite Hturn.
  - rewrite Hm, Hh, placements_snoc, Hcount.
    destruct (mv_pass m); [done|]. rewrite length_app. simpl. lia.
  - rewrite Hk, Hh, trailingPasses_snoc, Hpass. destruct (mv_pass m); lia.
  - rewrite Hl, Hh, lastPlacement_snoc, Hlast. done.
  - intros p c Hp. rewrite Hh, placements_snoc.
    destruct (Hs p c Hp) as [Hold|(Hnp & Hxy & Hmc)].
    + destruct (Hst p c Hold) as (m' & Hin' & Hxy & Hmc). exists m'.
      split; [|done]. destruct (mv_pass m); [done|]. apply elem_of_app. by left.
    + exists m. rewrite Hnp. split; [|done]. apply elem_of_app. right. left.
  - rewrite Hh, Hseats. apply Forall_app. split; [done|]. by constructor.
Qed.

Lemma Ledger_same (g g' : Game) :
  Ledger g ->
  moveHistory (boardState g') = moveHistory (boardState g) ->
  currentTurn (boardState g') = currentTurn (boardState g) ->
  moveCount (boardState g') = moveCount (boardState g) ->
  consecutivePasses (boardState g') = consecutivePasses (boardState g) ->
  lastMove (boardState g') = lastMove (boardState g) ->
  (forall p c, stoneAt (board (boardState g')) p = Some c ->
               stoneAt (board (boardState g)) p = Some c) ->
  (forall s, s ∈ seatsOf g -> s ∈ seatsOf g') ->
  Ledger g'.
Proof.
  intros [Hcol Hturn Hcount Hpass Hlast Hst Hmov] Hh Ht Hm Hk Hl Hs Hseats.
  split; unfold lastPlaced in *; rewrite ?Hh, ?Ht, ?Hm, ?Hk, ?Hl; try done.
  - intros p c Hp. by apply Hst, Hs.
  - eapply List.Forall_impl; [|exact Hmov]. intros m. apply Hseats.
Qed.

Lemma Ledger_step (g g' : Game) : Step g g' -> Ledger g -> Ledger g'.
Proof.
  intros Hstep Hl.
  destruct Hstep as [|p now Hw Hlt Hs|p now q Hq Hr|p now q Hq Hlen Hr
                     |p x y tMove tLast now q Hq Ha|p now q Hq Hs Ht|p message now q Hq
                     |p now q Hq Hs].
  - done.
  - apply (Ledger_same g); try done.
    intros s Hin. unfold seatsOf. simpl. rewrite map_app. apply elem_of_app. by left.
  - apply (Ledger_same g); try done. intros s. by rewrite seatsOf_markReady.
  - apply (Ledger_same g); try done.
    + intros p' c. simpl. by rewrite initialBoard_no_stone.
    + intros s. by rewrite <- (seatsOf_markReady (_id p) now g).
  - destruct Ha as (Hact & Hturn & [[Hx _] [Hy _]] & cell & Hc & He).
    apply findPlayer_Some in Hq as [Hin Hid].
    apply (Ledger_appended g _ (mkMove (_id p) (color q) x y tMove [] false));
      simpl; try done.
    + by rewrite Hturn.
    + intros p' c Hp.
      destruct (stone_after _ _ _ _ _ Hx Hy Hc _ _ Hp) as [[-> ->]|[_ Hold]]; auto.
    + apply list_elem_of_fmap. exists q. by rewrite Hid.
  - apply findPlayer_Some in Hq as [Hin Hid].
    apply (Ledger_appended g _ (mkMove (_id p) (color q) (-1) (-1) now [] true));
      unfold passed; destruct (2 <=? consecutivePasses (boardState g) + 1);
      simpl; try done; try (by rewrite Ht); try (by left).
    all: apply list_elem_of_fmap; exists q; by rewrite Hid.
  - by apply (Ledger_same g).
  - by apply (Ledger_same g).
Qed.

Lemma Ledger_created (uuid : string) (body : CreateBody) (creator : AuthPlayer)
    (now : Date) (g0 : Game) :
  saved (createRoute uuid body creator now) = Some g0 -> Ledger g0.
Proof.
  unfold createRoute. rewrite addPlayer_cases; simpl.
  destruct (validBoardSize (cb_boardSize body)); [|done].
  intros [= <-]. split; simpl; try done.
  intros p c. unfold stoneAt, cellAt, index. by destruct (p.2 <? 0).
Qed.

Lemma Ledger_play (g : Game) (es : list Event) :
  Untouched g -> Ledger g -> Ledger (play g es).
Proof.
  revert g. induction es as [|e es IH]; intros g Hu Hl; [done|].
  simpl. apply IH; [by apply Untouched_persistEvent|].
  eapply Ledger_step; [|done]. by apply persistEvent_step, Untouched_positive.
Qed.

(** ** The status of a session *)

Lemma Lifecycle_step (g g' : Game) : Step g g' -> Lifecycle g -> Lifecycle g'.
Proof.
  intros Hstep [Hst Hwait Hstart Hcells].
  destruct Hstep as [|p now Hw Hlt Hs|p now q Hq Hr|p now q Hq Hlen Hr
                     |p x y tMove tLast now q Hq Ha|p now q Hq Hs Ht|p message now q Hq
                     |p now q Hq Hs].
  - done.
  - split; simpl; [by left| |congruence|congruence].
    intros _. split; [by apply Hwait|].
    rewrite forallb_app. simpl. by rewrite !andb_false_r.
  - split; simpl; [done| | |done].
    + intros Hw. split; [by apply Hwait|]. by rewrite markReady_length.
    + intros Hn. destruct (Hstart Hn) as [Hl Hall].
      rewrite Hl, (markReady_ready _ _ Hall) in Hr. done.
  - split; simpl; [by right; left|done| |].
    + intros _. by rewrite markReady_length.
    + intros _ x y [Hx Hy]. by rewrite initialBoard_lookup.
  - destruct Ha as (Hact & Hturn & Hb & cell & Hc & He).
    assert (status g <> waiting) as Hn by congruence.
    split; simpl; [done|congruence|by intros _; apply Hstart|].
    intros _ x' y' Hin. destruct (decide ((x', y') = (x, y))) as [[= -> ->]|Hne].
    + by rewrite (cellAt_place_same _ _ _ _ _ Hc).
    + destruct Hb as [[? _] [? _]]. rewrite cellAt_place_other by done. by apply Hcells.
  - assert (status g <> waiting) as Hn by congruence.
    unfold passed. destruct (2 <=? consecutivePasses (boardState g) + 1);
      split; simpl; try done; try congruence; try (by intros _; apply Hstart);
      try (by intros _; apply Hcells).
    by right; right.
  - done.
  - assert (status g <> waiting) as Hn by congruence.
    split; simpl; [by right; right|done|by intros _; apply Hstart|by intros _; apply Hcells].
Qed.

Lemma Lifecycle_created (uuid : string) (body : CreateBody) (creator : AuthPlayer)
    (now : Date) (g0 : Game) :
  saved (createRoute uuid body creator now) = Some g0 -> Lifecycle g0.
Proof.
  unfold createRoute. rewrite addPlayer_cases; simpl.
  destruct (validBoardSize (cb_boardSize body)); [|done].
  intros [= <-]. split; simpl; try done. by left.
Qed.

Lemma Lifecycle_play (g : Game) (es : list Event) :
  Untouched g -> Lifecycle g -> Lifecycle (play g es).
Proof.
  revert g. induction es as [|e es IH]; intros g Hu Hl; [done|].
  simpl. apply IH; [by apply Untouched_persistEvent|].
  eapply Lifecycle_step; [|done]. by apply persistEvent_step, Untouched_positive.
Qed.

(** ** What holds in every session *)

(** The sessions below start from a document that the creation route has
    saved and go through any sequence of join, ready, move, pass, chat and
    resign requests. *)

(** X4. In every session the status is ['waiting'], ['active'] or
    ['completed'], never ['paused'] or ['abandoned']. The session has left
    ['waiting'] exactly when two players are seated and both are ready; as
    long as it is ['waiting'] no move is recorded. *)
Theorem session_status
    (uuid : string) (body : CreateBody) (creator : AuthPlayer) (now : Date)
    (g0 : Game) (es : list Event) :
  saved (createRoute uuid body creator now) = Some g0 ->
  (status (play g0 es) = waiting \/ status (play g0 es) = active \/
   status (play g0 es) = completed) /\
  (status (play g0 es) <> waiting <->
   length (players (play g0 es)) = 2%nat /\
   forallb isReady (players (play g0 es)) = true) /\
  (status (play g0 es) = waiting -> moveHistory (boardState (play g0 es)) = []).
Proof.
  intros Hc.
  destruct (Lifecycle_play g0 es (Untouched_created _ _ _ _ _ Hc)
              (Lifecycle_created _ _ _ _ _ Hc)) as [Hst Hwait Hstart _].
  split; [done|]. split; [|by intros Hw; apply Hwait].
  split; [done|]. intros [Hl Hr] Hw. destruct (Hwait Hw) as [_ Hno].
  by rewrite Hl, Hr in Hno.
Qed.

Lemma session_status_witness :
  status (play created [Play (Join bob 101); Play (Ready alice 102);
                        Chat bob "hello" 103; Play (Ready bob 104);
                        Resign bob 105]) <> waiting.
Proof.
  apply (proj2 (proj1 (proj2 (session_status "g-1"%string body9 alice 100 created
     [Play (Join bob 101); Play (Ready alice 102); Chat bob "hello" 103;
      Play (Ready bob 104); Resign bob 105] eq_refl)))).
  split; vm_compute; reflexivity.
Defined.

Lemma alternating_lookup (n i : nat) :
  (i < n)%nat -> alternating n !! i = Some (if Nat.even i then black else white).
Proof. intros Hi. unfold alternating. by rewrite list_lookup_fmap, lookup_seq_lt. Qed.

(** X5. In every session the recorded moves, passes included, alternate in
    colour from the first on: the move at index [i] of the history is
    black when [i] is even and white when [i] is odd, and the turn belongs
    to the colour that the next index calls for. A restart of the game by
    the ready route does not break the alternation, since it keeps both the
    history and the turn. *)
Theorem session_moves_alternate
    (uuid : string) (body : CreateBody) (creator : AuthPlayer) (now : Date)
    (g0 : Game) (es : list Event) :
  saved (createRoute uuid body creator now) = Some g0 ->
  (forall i m, moveHistory (boardState (play g0 es)) !! i = Some m ->
               mv_color m = if Nat.even i then black else white) /\
  currentTurn (boardState (play g0 es)) =
    (if Nat.even (length (moveHistory (boardState (play g0 es)))) then black else white).
Proof.
  intros Hc.
  destruct (Ledger_play g0 es (Untouched_created _ _ _ _ _ Hc) (Ledger_created _ _ _ _ _ Hc))
    as [Hcol Hturn _ _ _ _ _].
  split; [|done]. intros i m Hm.
  assert (map mv_color (moveHistory (boardState (play g0 es))) !! i = Some (mv_color m)) as H.
  { change map with (@fmap list _). by rewrite list_lookup_fmap, Hm. }
  rewrite Hcol, alternating_lookup in H by (by eapply lookup_lt_Some).
  by injection H.
Qed.

(** Bob's pass is the second move of the finished game. *)
Lemma session_moves_alternate_witness :
  exists m, moveHistory (boardState (play created finished)) !! 1%nat = Some m /\
            mv_playerId m = "b0b"%string /\ mv_color m = white.
Proof.
  exists (mkMove "b0b" white (-1) (-1) 105 [] true).
  assert (moveHistory (boardState (play created finished)) !! 1%nat =
            Some (mkMove "b0b" white (-1) (-1) 105 [] true)) as Hm
    by (vm_compute; reflexivity).
  split; [exact Hm|]. split; [reflexivity|].
  apply (proj1 (session_moves_alternate "g-1"%string body9 alice 100 created finished eq_refl)
           1%nat _ Hm).
Defined.

(** X6. In every session each recorded move, pass or placement, carries
    the identifier of a seated player together with that player's colour:
    the routes take the colour of a move from the seat of the caller, never
    from the request. *)
Theorem session_moves_by_seated_players
    (uuid : string) (body : CreateBody) (creator : AuthPlayer) (now : Date)
    (g0 : Game) (es : list Event) :
  saved (createRoute uuid body creator now) = Some g0 ->
  forall m, m ∈ moveHistory (boardState (play g0 es)) ->
  exists q, q ∈ players (play g0 es) /\
            playerId q = mv_playerId m /\ color q = mv_color m.
Proof.
  intros Hc m Hm.
  destruct (Ledger_play g0 es (Untouched_created _ _ _ _ _ Hc) (Ledger_created _ _ _ _ _ Hc))
    as [_ _ _ _ _ _ Hmov].
  rewrite Forall_forall in Hmov. specialize (Hmov m Hm).
  apply list_elem_of_fmap in Hmov as (q & [= Hid Hcol] & Hq). eauto.
Qed.

(** X7. In every session the counters agree with the history: [moveCount]
    is the number of placements recorded (passes are not counted),
    [consecutivePasses] is the number of passes at the end of the history,
    and [lastMove] holds the coordinates and the colour of the last
    placement recorded, or is absent when no stone was ever placed. (The
    instant of [lastMove] is not compared: it is read from the clock after
    the instant of the recorded move.) *)
Theorem session_counters_follow_history
    (uuid : string) (body : CreateBody) (creator : AuthPlayer) (now : Date)
    (g0 : Game) (es : list Event) :
  saved (createRoute uuid body creator now) = Some g0 ->
  moveCount (boardState (play g0 es)) =
    Z.of_nat (length (placements (moveHistory (boardState (play g0 es))))) /\
  consecutivePasses (boardState (play g0 es)) =
    trailingPasses (moveHistory (boardState (play g0 es))) /\
  (fun l => (lm_x l, lm_y l, lm_color l)) <$> lastMove (boardState (play g0 es)) =
    lastPlacement (moveHistory (boardState (play g0 es))).
Proof.
  intros Hc.
  by destruct (Ledger_play g0 es (Untouched_created _ _ _ _ _ Hc)
                 (Ledger_created _ _ _ _ _ Hc)) as [_ _ ? ? ? _ _].
Qed.

(** X8. In every session each stone on the board was put there by a
    recorded placement: the history holds a placement with the stone's
    coordinates and colour. (The converse fails: a restart empties the board
    and keeps the history.) *)
Theorem session_stones_were_played
    (uuid : string) (body : CreateBody) (creator : AuthPlayer) (now : Date)
    (g0 : Game) (es : list Event) :
  saved (createRoute uuid body creator now) = Some g0 ->
  forall p c, stoneAt (board (boardState (play g0 es))) p = Some c ->
  exists m, m ∈ moveHistory (boardState (play g0 es)) /\ mv_pass m = false /\
            (mv_x m, mv_y m) = p /\ mv_color m = c.
Proof.
  intros Hc p c Hp.
  destruct (Ledger_play g0 es (Untouched_created _ _ _ _ _ Hc) (Ledger_created _ _ _ _ _ Hc))
    as [_ _ _ _ _ Hst _].
  destruct (Hst p c Hp) as (m & Hm & Hxy & Hcol).
  apply list_elem_of_filter in Hm as [Hnp Hm]. eauto.
Qed.


(** Alice's stone of the opening is recorded under her seat. *)
Lemma session_moves_by_seated_players_witness :
  exists q, q ∈ players (play created opening) /\
            playerId q = "a11ce"%string /\ color q = black.
Proof.
  apply (session_moves_by_seated_players "g-1"%string body9 alice 100 created opening
           eq_refl (mkMove "a11ce" black 4 4 104 [] false)).
  vm_compute. apply list_elem_of_here.
Defined.

Lemma session_counters_follow_history_witness :
  moveCount (boardState (play created finished)) =
    Z.of_nat (length (placements (moveHistory (boardState (play created finished))))) /\
  consecutivePasses (boardState (play created finished)) =
    trailingPasses (moveHistory (boardState (play created finished))) /\
  (fun l => (lm_x l, lm_y l, lm_color l)) <$> lastMove (boardState (play created finished)) =
    lastPlacement (moveHistory (boardState (play created finished))).
Proof.
  apply (session_counters_follow_history "g-1"%string body9 alice 100 created finished eq_refl).
Defined.

Lemma session_stones_were_played_witness :
  exists m, m ∈ moveHistory (boardState (play created opening)) /\ mv_pass m = false /\
            (mv_x m, mv_y m) = (4, 5) /\ mv_color m = white.
Proof.
  apply (session_stones_were_played "g-1"%string body9 alice 100 created opening eq_refl
           (4, 5) white).
  vm_compute. reflexivity.
Defined.


(** ** The answers of the move and pass routes *)

Lemma moveRoute_cases (player : AuthPlayer) (x y : Z) (now : Date) (g : Game) (q : GamePlayer) :
  status g = active -> findPlayer player g = Some q ->
  (MoveAccepted g x y (color q) /\
   moveRoute player x y now (Some g) =
     mkHandled (JsonOk 200 "Move made successfully")
               (Some (save now (committed (_id player) x y (color q) now now g)))) \/
  (~ MoveAccepted g x y (color q) /\
   moveRoute player x y now (Some g) = reject 500 "Server error making move").
Proof.
  intros Hs Hq. unfold moveRoute. rewrite (bool_decide_eq_true_2 _ Hs), Hq. simpl.
  destruct (makeMove_cases (_id player) x y (color q) now now g) as [(e & Hr & ->)|[Ha ->]].
  - right. split; [by eapply rejected_not_accepted | done].
  - by left.
Qed.

(** X10. In an active game, the move route answers every placement that
    [makeMove] refuses with 500 "Server error making move" and saves
    nothing: a placement out of turn, outside the board or on an occupied
    intersection is not told apart from a server failure, and none gets a
    400. A pass out of turn is answered 500 "Server error passing turn" in
    the same way. The accepted placement or pass is saved with the two
    stamps of the save hook and answered 200. *)
Theorem rule_violations_are_answered_500
    (player : AuthPlayer) (x y : Z) (now : Date) (g : Game) (q : GamePlayer) :
  status g = active -> findPlayer player g = Some q ->
  (currentTurn (boardState g) <> color q ->
   moveRoute player x y now (Some g) = reject 500 "Server error making move" /\
   passRoute player now (Some g) = reject 500 "Server error passing turn") /\
  (~ inBounds g x y ->
   moveRoute player x y now (Some g) = reject 500 "Server error making move") /\
  (stoneAt (board (boardState g)) (x, y) <> None ->
   moveRoute player x y now (Some g) = reject 500 "Server error making move") /\
  (MoveAccepted g x y (color q) ->
   moveRoute player x y now (Some g) =
     mkHandled (JsonOk 200 "Move made successfully")
               (Some (save now (committed (_id player) x y (color q) now now g)))) /\
  (currentTurn (boardState g) = color q ->
   passRoute player now (Some g) =
     mkHandled (JsonOk 200 "Turn passed successfully")
               (Some (save now (passed (_id player) (color q) now g)))).
Proof.
  intros Hs Hq.
  assert (~ MoveAccepted g x y (color q) ->
          moveRoute player x y now (Some g) = reject 500 "Server error making move") as Hno.
  { intros Hn. by destruct (moveRoute_cases player x y now g q Hs Hq) as [[Ha _]|[_ ->]]. }
  split; [|split; [|split; [|split]]].
  - intros Ht. split.
    + apply Hno. intros (_ & Ht' & _). done.
    + unfold passRoute. rewrite (bool_decide_eq_true_2 _ Hs), Hq. simpl.
      destruct (passTurn_cases (_id player) (color q) now g) as [(e & _ & ->)|(_ & Ht' & _)];
        done.
  - intros Hb. apply Hno. intros (_ & _ & Hb' & _). done.
  - intros Ho. apply Hno. intros (_ & _ & _ & cell & Hc & He). apply Ho.
    unfold stoneAt. simpl. by rewrite Hc.
  - intros Ha. by destruct (moveRoute_cases player x y now g q Hs Hq) as [[_ ->]|[Hn _]].
  - intros Ht. unfold passRoute. rewrite (bool_decide_eq_true_2 _ Hs), Hq. simpl.
    destruct (passTurn_cases (_id player) (color q) now g) as [(e & Hr & _)|(_ & _ & ->)];
      [|done]. inversion Hr; congruence.
Qed.

(** Bob plays out of turn, then on no intersection of the board. *)
Lemma rule_violations_witness :
  moveRoute bob 0 0 104 (Some started) = reject 500 "Server error making move" /\
  moveRoute alice 9 0 104 (Some started) = reject 500 "Server error making move".
Proof.
  split.
  - apply (proj1 (proj1 (rule_violations_are_answered_500 bob 0 0 104 started
       (mkPlayer "b0b" "bob" "Bob" white true true 101 None 0 0)
       ltac:(vm_compute; reflexivity) ltac:(vm_compute; reflexivity))
       ltac:(vm_compute; discriminate))).
  - apply (proj1 (proj2 (rule_violations_are_answered_500 alice 9 0 104 started
       (mkPlayer "a11ce" "alice" "Alice" black true true 100 None 0 0)
       ltac:(vm_compute; reflexivity) ltac:(vm_compute; reflexivity)))).
    intros [[_ H] _]. vm_compute in H. discriminate.
Defined.

(** ** The call after an accepted placement *)

(** X11. After [makeMove] has accepted a placement of colour [c] at (x, y),
    the document refuses the same colour again, placement or pass, with "Not
    your turn", and refuses the other colour at (x, y) with "Position
    already occupied". A pass of the other colour is accepted: it counts as
    the first consecutive pass, whatever the counter was before the
    placement, and leaves the game ['active']. *)
Theorem after_an_accepted_placement
    (pid : ObjectId) (x y : Z) (c : StoneColor) (t1 t2 : Date) (g g1 : Game) (r : bool) :
  makeMove pid x y c t1 t2 g = Returned r g1 ->
  (forall pid' x' y' t t',
     makeMove pid' x' y' c t t' g1 = Thrown (Error "Not your turn") g1) /\
  (forall pid' t, passTurn pid' c t g1 = Thrown (Error "Not your turn") g1) /\
  (forall pid' t t',
     makeMove pid' x y (opposite c) t t' g1 = Thrown (Error "Position already occupied") g1) /\
  (forall pid' t,
     passTurn pid' (opposite c) t g1 = Returned true (passed pid' (opposite c) t g1) /\
     status (passed pid' (opposite c) t g1) = active /\
     consecutivePasses (boardState (passed pid' (opposite c) t g1)) = 1 /\
     currentTurn (boardState (passed pid' (opposite c) t g1)) = c).
Proof.
  intros ((Hs & Ht & Hb & cell & Hc & He) & _ & ->)%makeMove_returned.
  pose proof (opposite_ne c) as Hne.
  split; [|split; [|split]].
  - intros. apply makeMove_rejects. by apply rejected_not_your_turn.
  - intros. destruct (passTurn_cases pid' c t (committed pid x y c t1 t2 g))
      as [(e & Hr & ->)|(_ & Ht' & _)]; [|done].
    inversion Hr; subst; [done | reflexivity].
  - intros. apply makeMove_rejects.
    apply (rejected_occupied _ _ _ _ (set_stone (Some c) cell)); try done.
    simpl. by apply cellAt_place_same.
  - intros pid' t.
    destruct (passTurn_cases pid' (opposite c) t (committed pid x y c t1 t2 g))
      as [(e & Hr & _)|(_ & _ & ->)].
    + inversion Hr; subst; simpl in *; congruence.
    + split; [done|]. unfold passed. simpl. repeat split; [done|]. by destruct c.
Qed.

(** Alice has played (2,2) in the session just started. *)
Lemma after_an_accepted_placement_witness :
  makeMove "b0b" 2 2 white 105 105 (committed "a11ce" 2 2 black 104 104 started) =
    Thrown (Error "Position already occupied") (committed "a11ce" 2 2 black 104 104 started).
Proof.
  apply (proj1 (proj2 (proj2 (after_an_accepted_placement "a11ce"%string 2 2 black 104 104
                                started (committed "a11ce" 2 2 black 104 104 started) true
                                ltac:(vm_compute; reflexivity))))).
Defined.

(** ** The chat log *)

Lemma seated_elem (id : ObjectId) (g : Game) :
  seated id g = true <-> id ∈ map playerId (players g).
Proof.
  unfold seated. rewrite existsb_exists, list_elem_of_In, in_map_iff.
  split; intros (q & H1 & H2); exists q.
  - by apply String.eqb_eq in H2.
  - split; [done|]. by apply String.eqb_eq.
Qed.

Lemma findPlayer_seated (p : AuthPlayer) (g : Game) (q : GamePlayer) :
  findPlayer p g = Some q -> seated (_id p) g = true.
Proof.
  intros [Hin Hid]%findPlayer_Some. apply seated_elem. rewrite <- Hid.
  apply list_elem_of_In, in_map. by apply list_elem_of_In.
Qed.

Lemma seated_step (g g' : Game) (id : ObjectId) :
  Step g g' -> seated id g = true -> seated id g' = true.
Proof.
  intros Hstep. rewrite !seated_elem.
  destruct Hstep; unfold passed; try destruct (2 <=? _); simpl;
    rewrite ?map_app, ?markReady_playerId; try done.
  intros Hin. apply elem_of_app. by left.
Qed.

Lemma chat_step (g g' : Game) :
  Step g g' -> chat g `prefix_of` chat g' /\ (fromSeats g -> fromSeats g').
Proof.
  intros Hstep. split.
  - destruct Hstep; unfold passed; try destruct (2 <=? _); simpl; try done.
    by apply prefix_app_r.
  - unfold fromSeats. intros Hf.
    assert (Forall (fun m => seated (ch_playerId m) g' = true /\ ch_type m = chat_msg)
                   (chat g)) as Hf'.
    { eapply List.Forall_impl; [|exact Hf]. intros m [Hm Ht]. split; [|done].
      by eapply seated_step. }
    destruct Hstep; unfold passed; try destruct (2 <=? _); simpl; try done.
    apply Forall_app. split; [done|]. constructor; [|done]. simpl. split; [|done].
    eapply (seated_step g); [by eapply step_chat|]. by eapply findPlayer_seated.
Qed.

Lemma chat_play (g : Game) (es : list Event) :
  Untouched g -> chat g `prefix_of` chat (play g es) /\ (fromSeats g -> fromSeats (play g es)).
Proof.
  revert g. induction es as [|e es IH]; intros g Hu; [done|]. simpl.
  destruct (chat_step g (persistEvent g e)) as [Hp Hf].
  { apply persistEvent_step. by apply Untouched_positive. }
  destruct (IH (persistEvent g e)) as [Hp' Hf']; [by apply Untouched_persistEvent|].
  split; [by etrans | auto].
Qed.

(** X12. In every session the chat log only grows: the log at any point of
    the session is a prefix of the log at every later point, so no request
    removes, edits or reorders a message. Every message of the log has the
    type ['chat'] and the identifier of a player who is seated. *)
Theorem session_chat_log
    (uuid : string) (body : CreateBody) (creator : AuthPlayer) (now : Date)
    (g0 : Game) (es later : list Event) :
  saved (createRoute uuid body creator now) = Some g0 ->
  chat (play g0 es) `prefix_of` chat (play g0 (es ++ later)) /\
  (forall m, m ∈ chat (play g0 es) ->
     seated (ch_playerId m) (play g0 es) = true /\ ch_type m = chat_msg).
Proof.
  intros Hc. pose proof (Untouched_created _ _ _ _ _ Hc) as Hu. split.
  - unfold play. rewrite foldl_app. apply (chat_play (play g0 es) later).
    by apply Untouched_play.
  - intros m Hm. destruct (chat_play g0 es Hu) as [_ Hf].
    assert (fromSeats g0) as H0.
    { revert Hc. unfold createRoute. rewrite addPlayer_cases; simpl.
      destruct (validBoardSize (cb_boardSize body)); [|done].
      intros [= <-]. constructor. }
    specialize (Hf H0). unfold fromSeats in Hf. rewrite Forall_forall in Hf. by apply Hf.
Qed.

(** Bob's message is accepted; the message of a player who is not seated
    is not. *)
Lemma session_chat_log_witness :
  chat (play created [Play (Join bob 101); Chat bob "hi" 102]) `prefix_of`
    chat (play created ([Play (Join bob 101); Chat bob "hi" 102] ++
                        [Chat (mkAuth "c4r01" "carol" "Carol") "hello" 103;
                         Chat alice "welcome" 104])).
Proof.
  apply (proj1 (session_chat_log "g-1"%string body9 alice 100 created
                  [Play (Join bob 101); Chat bob "hi" 102]
                  [Chat (mkAuth "c4r01" "carol" "Carol") "hello" 103;
                   Chat alice "welcome" 104] eq_refl)).
Defined.

(** ** Resignation *)

(** X13. In every session, when a seated player resigns from an active
    game, the route saves the document as ['completed'] with its board
    state, players (scores included), settings and chat as they were: the
    document records neither the resignation nor a winner. The winner that
    the route announces is the other seat: a player with another
    identifier and the opposite colour. *)
Theorem session_resignation
    (uuid : string) (body : CreateBody) (creator : AuthPlayer) (now : Date)
    (g0 : Game) (es : list Event) (player : AuthPlayer) (t : Date) (q : GamePlayer) :
  saved (createRoute uuid body creator now) = Some g0 ->
  status (play g0 es) = active ->
  findPlayer player (play g0 es) = Some q ->
  exists g' w,
    resignRoute player t (Some (play g0 es)) =
      mkHandled (JsonOk 200 "Game resigned successfully") (Some g') /\
    status g' = completed /\
    boardState g' = boardState (play g0 es) /\
    players g' = players (play g0 es) /\
    gameSettings g' = gameSettings (play g0 es) /\
    chat g' = chat (play g0 es) /\
    lastActivity (metadata g') = t /\
    resignWinner player g' = Some w /\
    w ∈ players (play g0 es) /\
    playerId w <> _id player /\
    color w = opposite (color q).
Proof.
  intros Hc Hs Hq.
  pose proof (Untouched_created _ _ _ _ _ Hc) as Hu.
  destruct (Seats_play g0 es Hu (Seats_created _ _ _ _ _ Hc)) as (Hcol & Hnd & Hfull).
  specialize (Hfull ltac:(congruence)).
  unfold resignRoute. rewrite (bool_decide_eq_true_2 _ Hs), Hq. simpl.
  unfold resignWinner, findPlayer in *. simpl.
  destruct (players (play g0 es)) as [|a [|b [|? ?]]] eqn:Hps; try done.
  destruct Hcol as [Hcol|Hcol]; [done|]. injection Hcol as Ha Hb.
  simpl in Hnd. apply NoDup_cons in Hnd as [Hab _].
  rewrite list_elem_of_singleton in Hab.
  simpl in Hq.
  assert (exists w, find (fun p => negb (String.eqb (playerId p) (_id player))) [a; b] = Some w /\
                    w ∈ [a; b] /\ playerId w <> _id player /\ color w = opposite (color q))
    as (w & Hw & Hin & Hid & Hop).
  { simpl. destruct (String.eqb_spec (playerId a) (_id player)) as [Ea|Ea]; simpl.
    - injection Hq as <-.
      destruct (String.eqb_spec (playerId b) (_id player)) as [Eb|Eb]; [congruence|]. simpl.
      exists b. repeat split; try done.
      + apply list_elem_of_further, list_elem_of_here.
      + by rewrite Ha, Hb.
    - destruct (String.eqb_spec (playerId b) (_id player)) as [Eb|Eb]; [|done].
      injection Hq as <-.
      exists a. repeat split; try done.
      + apply list_elem_of_here.
      + by rewrite Ha, Hb. }
  eexists _, w. split; [reflexivity|]. simpl. rewrite Hps. by repeat split.
Qed.

(** Bob resigns after the opening: Alice is announced as the winner. *)
Lemma session_resignation_witness :
  exists g' w,
    saved (resignRoute bob 106 (Some (play created opening))) = Some g' /\
    status g' = completed /\
    resignWinner bob g' = Some w /\ playerId w = "a11ce"%string /\ color w = black.
Proof.
  destruct (session_resignation "g-1"%string body9 alice 100 created opening bob 106
              (mkPlayer "b0b" "bob" "Bob" white true true 101 None 0 0)
              eq_refl ltac:(vm_compute; reflexivity) ltac:(vm_compute; reflexivity))
    as (g' & w & Hr & Hs & _ & _ & _ & _ & _ & Hw & _).
  exists g', w. rewrite Hr. split; [reflexivity|]. split; [exact Hs|].
  split; [exact Hw|].
  pose proof (f_equal saved Hr) as Hg. vm_compute in Hg. injection Hg as Hg.
  rewrite <- Hg in Hw. vm_compute in Hw. injection Hw as Hw. rewrite <- Hw.
  split; reflexivity.
Defined.

(** ** A completed game *)

(** X14. In every session, once the game is ['completed'] the join, move,
    pass and resign routes answer 400 and save nothing. The status is not
    final, though: a ready request of a seated player starts the game
    again, so that the saved document is ['active'] with an empty board
    and the move history of the completed game. *)
Theorem completed_session_fate
    (uuid : string) (body : CreateBody) (creator : AuthPlayer) (now : Date)
    (g0 : Game) (es : list Event) (p : AuthPlayer) (x y : Z) (t : Date) :
  saved (createRoute uuid body creator now) = Some g0 ->
  status (play g0 es) = completed ->
  joinRoute p t (Some (play g0 es)) = reject 400 "Game is not accepting players" /\
  moveRoute p x y t (Some (play g0 es)) = reject 400 "Game is not active" /\
  passRoute p t (Some (play g0 es)) = reject 400 "Game is not active" /\
  resignRoute p t (Some (play g0 es)) = reject 400 "Game is not active" /\
  (findPlayer p (play g0 es) <> None ->
   exists g',
     readyRoute p t (Some (play g0 es)) =
       mkHandled (JsonOk 200 "Player ready status updated") (Some g') /\
     status g' = active /\
     (forall c, stoneAt (board (boardState g')) c = None) /\
     moveHistory (boardState g') = moveHistory (boardState (play g0 es)) /\
     currentTurn (boardState g') = currentTurn (boardState (play g0 es))).
Proof.
  intros Hc Hs.
  pose proof (Untouched_created _ _ _ _ _ Hc) as Hu.
  destruct (Lifecycle_play g0 es Hu (Lifecycle_created _ _ _ _ _ Hc)) as [_ _ Hst _].
  destruct (Hst ltac:(congruence)) as [Hl Hr].
  pose proof (Untouched_positive _ (Untouched_play g0 es Hu)) as Hn.
  unfold joinRoute, moveRoute, passRoute, resignRoute.
  rewrite !bool_decide_eq_false_2 by congruence. simpl.
  repeat (split; [done|]).
  intros Hp. unfold readyRoute.
  destruct (findPlayer p (play g0 es)) as [q|]; [clear Hp|done].
  cbv zeta. rewrite startGame_positive by done. simpl.
  rewrite markReady_length, Hl, (markReady_ready _ _ Hr). simpl.
  eexists. split; [reflexivity|]. simpl. repeat split.
  intros c. apply initialBoard_no_stone.
Qed.

(** Two passes have completed the game; Bob's ready request opens it again. *)
Lemma completed_session_witness :
  exists g', saved (readyRoute bob 107 (Some (play created finished))) = Some g' /\
             status g' = active /\
             stoneAt (board (boardState (play created finished))) (0, 0) = Some black /\
             stoneAt (board (boardState g')) (0, 0) = None.
Proof.
  destruct (proj2 (proj2 (proj2 (proj2
              (completed_session_fate "g-1"%string body9 alice 100 created finished
                 bob 0 0 107 eq_refl ltac:(vm_compute; reflexivity)))))
              ltac:(vm_compute; discriminate))
    as (g' & Hr & Hs & Hb & _).
  exists g'. rewrite Hr. split; [reflexivity|]. split; [exact Hs|].
  split; [vm_compute; reflexivity | apply Hb].
Defined.

(** ** What a session keeps of its creation *)

Lemma Origin_step (uuid : string) (body : CreateBody) (creator : AuthPlayer) (now : Date)
    (g g' : Game) :
  Step g g' -> Origin uuid body creator now g -> Origin uuid body creator now g'.
Proof.
  intros Hstep Ho.
  pose proof Ho as [Hid Hset Hsz Hrules Hby Hat (q0 & rest & Hps & Hq0 & Hc0) Hsa].
  destruct Hstep as [|p t Hw Hlen Hnot|p t q Hq Hnr|p t q Hq Hlen Hr|p x y tMove tLast t q Hq Ha
                    |p t q Hq Hact Ht|p message t q Hq|p t q Hq Hact]; [done|..].
  all: assert (status g <> waiting -> startedAt (metadata g) <> None) as Hsome
    by (rewrite <- Hsa; congruence).
  all: unfold passed; try destruct (2 <=? _); split; simpl; try done;
    rewrite ?Hps; simpl; try destruct (String.eqb _ _); eauto.
  all: split; [discriminate | intros Hn; exfalso; revert Hn; apply Hsome; congruence].
Qed.

Lemma Origin_created (uuid : string) (body : CreateBody) (creator : AuthPlayer)
    (now : Date) (g0 : Game) :
  saved (createRoute uuid body creator now) = Some g0 -> Origin uuid body creator now g0.
Proof.
  unfold createRoute. rewrite addPlayer_cases; simpl.
  destruct (validBoardSize (cb_boardSize body)) eqn:Hv; [|done].
  intros [= <-]. split; simpl; try done. eauto.
Qed.

Lemma Origin_play (uuid : string) (body : CreateBody) (creator : AuthPlayer) (now : Date)
    (g : Game) (es : list Event) :
  Untouched g -> Origin uuid body creator now g -> Origin uuid body creator now (play g es).
Proof.
  revert g. induction es as [|e es IH]; intros g Hu Ho; [done|]. simpl.
  apply IH; [by apply Untouched_persistEvent|].
  eapply Origin_step; [|done]. apply persistEvent_step. by apply Untouched_positive.
Qed.

(** X15. A session keeps what its creation fixed. In every session the
    board size is the one requested, 9, 13 or 19; the settings are those of
    the creation request (handicap 0, komi 6.5 and no undo unless given); the
    rules are: no suicide, ko rule ['standard'], scoring ['territory']; the
    game identifier, the creator and the creation time are those of the
    document that the creation route saved; and the first seat is the
    creator's, with the black stones. Besides, [metadata.startedAt] is
    absent exactly as long as the session is ['waiting']. *)
Theorem session_keeps_its_creation
    (uuid : string) (body : CreateBody) (creator : AuthPlayer) (now : Date)
    (g0 : Game) (es : list Event) :
  saved (createRoute uuid body creator now) = Some g0 ->
  gameId (play g0 es) = uuid /\ gameId g0 = uuid /\
  (boardSize (gameSettings (play g0 es)) = 9 \/ boardSize (gameSettings (play g0 es)) = 13 \/
   boardSize (gameSettings (play g0 es)) = 19) /\
  gameSettings (play g0 es) =
    mkSettings (cb_boardSize body) (cb_timeControl body) (cb_timeLimit body)
      (default 0 (cb_handicap body)) (default 13 (cb_komi2 body))
      (default false (cb_allowUndo body)) (default true (cb_allowResign body)) /\
  gameRules (play g0 es) = mkRules false standard territory /\
  createdBy (metadata (play g0 es)) = _id creator /\
  createdAt (metadata (play g0 es)) = createdAt (metadata g0) /\
  (exists q rest, players (play g0 es) = q :: rest /\
                  playerId q = _id creator /\ color q = black) /\
  (status (play g0 es) = waiting <-> startedAt (metadata (play g0 es)) = None).
Proof.
  intros Hc.
  pose proof (Origin_created _ _ _ _ _ Hc) as [Hid0 _ _ _ _ Hat0 _ _].
  destruct (Origin_play uuid body creator now g0 es (Untouched_created _ _ _ _ _ Hc)
              (Origin_created _ _ _ _ _ Hc))
    as [Hid Hset Hsz Hrules Hby Hat Hfirst Hsa].
  split; [done|]. split; [done|].
  split; [rewrite Hset; simpl; by apply validBoardSize_cases|].
  rewrite Hat0. by repeat (split; [done|]).
Qed.

Lemma session_keeps_its_creation_witness :
  gameRules (play created finished) = mkRules false standard territory.
Proof.
  apply (proj1 (proj2 (proj2 (proj2 (proj2
    (session_keeps_its_creation "g-1"%string body9 alice 100 created finished eq_refl)))))).
Defined.

(** ** Readiness *)

Lemma readyIn_markReady_other (id id' : ObjectId) (ps : list GamePlayer) :
  existsb (fun q => String.eqb (playerId q) id && isReady q) ps = true ->
  existsb (fun q => String.eqb (playerId q) id && isReady q) (markReady id' ps) = true.
Proof.
  induction ps as [|q ps IH]; simpl; [done|].
  intros [Hq|Hps]%orb_true_iff.
  - destruct (String.eqb (playerId q) id'); simpl.
    + apply andb_true_iff in Hq as [-> _]. done.
    + by rewrite Hq.
  - destruct (String.eqb (playerId q) id'); simpl.
    + rewrite Hps. apply orb_true_r.
    + rewrite (IH Hps). apply orb_true_r.
Qed.

Lemma readyIn_markReady_self (id : ObjectId) (ps : list GamePlayer) :
  existsb (fun q => String.eqb (playerId q) id) ps = true ->
  existsb (fun q => String.eqb (playerId q) id && isReady q) (markReady id ps) = true.
Proof.
  induction ps as [|q ps IH]; simpl; [done|].
  destruct (String.eqb (playerId q) id) eqn:E; simpl.
  - intros _. by rewrite E.
  - intros H. rewrite E. simpl. auto.
Qed.

Lemma readyIn_step (g g' : Game) (id : ObjectId) :
  Step g g' -> readyIn id g = true -> readyIn id g' = true.
Proof.
  unfold readyIn. intros Hstep Hr.
  destruct Hstep; unfold passed; try destruct (2 <=? _); simpl; try done.
  - rewrite existsb_app, Hr. done.
  - by apply readyIn_markReady_other.
  - by apply readyIn_markReady_other.
Qed.

Lemma readyIn_play (g : Game) (es : list Event) (id : ObjectId) :
  Untouched g -> readyIn id g = true -> readyIn id (play g es) = true.
Proof.
  revert g. induction es as [|e es IH]; intros g Hu Hr; [done|]. simpl.
  apply IH; [by apply Untouched_persistEvent|].
  eapply readyIn_step; [|done]. apply persistEvent_step. by apply Untouched_positive.
Qed.

(** X16. In every session the ready route answers a seated caller with 200
    "Player ready status updated", never with a 500, and the document it
    saves has the caller ready. Readiness is permanent: a player who is
    ready at some point of a session is seated and ready at every later
    point, since no route clears the flag or removes a seat. *)
Theorem session_readiness
    (uuid : string) (body : CreateBody) (creator : AuthPlayer) (now : Date)
    (g0 : Game) (es later : list Event) :
  saved (createRoute uuid body creator now) = Some g0 ->
  (forall p t, findPlayer p (play g0 es) <> None ->
     exists g', readyRoute p t (Some (play g0 es)) =
                  mkHandled (JsonOk 200 "Player ready status updated") (Some g') /\
                readyIn (_id p) g' = true) /\
  (forall id, readyIn id (play g0 es) = true -> readyIn id (play g0 (es ++ later)) = true).
Proof.
  intros Hc. pose proof (Untouched_play g0 es (Untouched_created _ _ _ _ _ Hc)) as Hu.
  split.
  - intros p t Hp. unfold readyRoute.
    destruct (findPlayer p (play g0 es)) as [q|] eqn:Hq; [clear Hp|done].
    apply findPlayer_seated in Hq.
    pose proof (Untouched_positive _ Hu) as Hn.
    cbv zeta. rewrite startGame_positive by done. simpl.
    destruct (Z.of_nat (length (markReady (_id p) (players (play g0 es)))) =? 2); simpl;
      [destruct (forallb isReady (markReady (_id p) (players (play g0 es)))); simpl|];
      (eexists; split; [reflexivity|]); unfold readyIn; simpl;
      by apply readyIn_markReady_self.
  - intros id Hr. unfold play. rewrite foldl_app. by apply readyIn_play.
Qed.

(** Alice is ready before Bob joins, and still is when the game is over. *)
Lemma session_readiness_witness :
  readyIn "a11ce" (play created ([Play (Ready alice 101)] ++ finished)) = true.
Proof.
  apply (proj2 (session_readiness "g-1"%string body9 alice 100 created
                  [Play (Ready alice 101)] finished eq_refl) "a11ce"%string).
  vm_compute. reflexivity.
Defined.

(** ** Stones and moves *)

(** X17. In every session the board holds at most [moveCount] stones: any
    list of distinct intersections that carry a stone is no longer than the
    move count. (It can hold fewer: a restart empties the board and keeps
    the count.) *)
Theorem session_stones_bounded_by_moveCount
    (uuid : string) (body : CreateBody) (creator : AuthPlayer) (now : Date)
    (g0 : Game) (es : list Event) (l : list Coord) :
  saved (createRoute uuid body creator now) = Some g0 ->
  NoDup l ->
  (forall p, p ∈ l -> stoneAt (board (boardState (play g0 es))) p <> None) ->
  Z.of_nat (length l) <= moveCount (boardState (play g0 es)).
Proof.
  intros Hc Hnd Hl.
  destruct (Ledger_play g0 es (Untouched_created _ _ _ _ _ Hc) (Ledger_created _ _ _ _ _ Hc))
    as [_ _ Hcount _ _ Hst _].
  rewrite Hcount.
  rewrite <- (length_map (fun m => (mv_x m, mv_y m))
                (placements (moveHistory (boardState (play g0 es))))).
  apply inj_le, submseteq_length, NoDup_submseteq; [done|].
  intros p Hp. specialize (Hl p Hp).
  destruct (stoneAt (board (boardState (play g0 es))) p) as [c|] eqn:Hs; [|done].
  destruct (Hst p c Hs) as (m & Hm & Hxy & _). rewrite <- Hxy.
  change map with (@fmap list _). by apply (list_elem_of_fmap_2 (fun m => (mv_x m, mv_y m))).
Qed.

Lemma session_stones_bounded_witness :
  Z.of_nat (length [(4, 4); (4, 5)]) <= moveCount (boardState (play created opening)).
Proof.
  apply (session_stones_bounded_by_moveCount "g-1"%string body9 alice 100 created opening
           [(4, 4); (4, 5)] eq_refl).
  - apply (bool_decide_unpack _). vm_compute. exact I.
  - intros p [->|[->|[]%elem_of_nil]%elem_of_cons]%elem_of_cons; vm_compute; discriminate.
Defined.
